(** * A shallow embedding of the food supply-chain registry (food.py)

    The Python classes [Product], [Location], [InventoryItem], [Order],
    [Delivery] become records, one module per class so that the fields keep
    their names.  The registry [FoodSupplyChain] becomes a record of its five
    dictionaries together with the store of [Order] objects, and every method
    becomes a function from a registry to a [run]: the registry afterwards,
    the lines it printed and what the call returned or raised.

    Dictionaries whose iteration order the code never observes ([products],
    [locations], [orders], [deliveries]) are finite maps.  The two
    dictionaries that the code iterates over ([inventory] and the [items] of
    an order) are association lists in insertion order, because first-fit
    selection depends on that order. *)

From stdpp Require Import gmap strings list fin_maps pretty.

Local Open Scope string_scope.
Local Open Scope list_scope.
Local Open Scope Z_scope.

(** ** Insertion-ordered dictionaries *)

Section Dict.
Context {K V : Type} `{EqDecision K}.

(** [d.get(k)] *)
Fixpoint dict_get (k : K) (d : list (K * V)) : option V :=
  match d with
  | [] => None
  | (k', v) :: d' => if decide (k' = k) then Some v else dict_get k d'
  end.

(** [k in d] *)
Definition dict_mem (k : K) (d : list (K * V)) : bool :=
  bool_decide (is_Some (dict_get k d)).

(** [d[k] = v]: an existing key keeps its position, a new key goes last. *)
Fixpoint dict_set (k : K) (v : V) (d : list (K * V)) : list (K * V) :=
  match d with
  | [] => [(k, v)]
  | (k', v') :: d' =>
      if decide (k' = k) then (k', v) :: d' else (k', v') :: dict_set k v d'
  end.

(** The keys of a Python dictionary are pairwise distinct. *)
Definition dict_ok (d : list (K * V)) : Prop := NoDup (d.*1).

End Dict.

(** ** Entity types *)

(** [datetime.date] *)
Record Date := mkDate { year : Z; month : Z; day : Z }.

Module Product.
Record t := mk {
  product_id : string;
  name : string;
  category : string;
  expiry_date : option Date
}.
End Product.

Module Location.
Record t := mk {
  location_id : string;
  name : string;
  location_type : string
}.
End Location.

Module InventoryItem.
Record t := mk {
  product : Product.t;
  location : Location.t;
  quantity : Z
}.

(** [item.quantity = q] *)
Definition set_quantity (q : Z) (it : t) : t :=
  mk (product it) (location it) q.
End InventoryItem.

Module Order.
Record t := mk {
  order_id : string;
  customer : string;
  order_date : Date;
  items : list (string * Z);
  status : string
}.

(** [Order(order_id, customer)]: [order_date] and [items] are left to their
    defaults, so the date is today's and the item dictionary is empty. *)
Definition init (order_id customer : string) (today : Date) : t :=
  mk order_id customer today [] "Pending".

Definition add_item (product_id : string) (quantity : Z) (o : t) : t :=
  let items' :=
    match dict_get product_id (items o) with
    | Some q => dict_set product_id (q + quantity) (items o)
    | None => dict_set product_id quantity (items o)
    end in
  mk (order_id o) (customer o) (order_date o) items' (status o).

Definition update_status (new_status : string) (o : t) : t :=
  mk (order_id o) (customer o) (order_date o) (items o) new_status.
End Order.

(** A [Delivery] holds a reference to its [Order] object: [order] is the
    address of that object in the store of the registry. *)
Module Delivery.
Record t := mk {
  delivery_id : string;
  order : nat;
  delivery_date : option Date;
  tracking_id : option string;
  status : string
}.

Definition init (delivery_id : string) (order : nat)
    (delivery_date : option Date) : t :=
  mk delivery_id order delivery_date None "Scheduled".

Definition update_status (new_status : string) (d : t) : t :=
  mk (delivery_id d) (order d) (delivery_date d) (tracking_id d) new_status.
End Delivery.

(** ** The registry *)

(** [order_objs] is the store of [Order] objects: an order is created once,
    is never freed, and is shared between [orders], the deliveries that
    reference it and the caller, so the dictionaries hold its address. *)
Record FoodSupplyChain := mkChain {
  order_objs : list Order.t;
  products : gmap string Product.t;
  locations : gmap string Location.t;
  inventory : list ((string * string) * InventoryItem.t);
  orders : gmap string nat;
  deliveries : gmap string Delivery.t
}.

(** [FoodSupplyChain()] *)
Definition new_chain : FoodSupplyChain := mkChain [] ∅ ∅ [] ∅ ∅.

Definition set_products (f : gmap string Product.t → gmap string Product.t)
    (s : FoodSupplyChain) : FoodSupplyChain :=
  mkChain (order_objs s) (f (products s)) (locations s) (inventory s)
    (orders s) (deliveries s).

Definition set_locations (f : gmap string Location.t → gmap string Location.t)
    (s : FoodSupplyChain) : FoodSupplyChain :=
  mkChain (order_objs s) (products s) (f (locations s)) (inventory s)
    (orders s) (deliveries s).

Definition set_inventory
    (f : list ((string * string) * InventoryItem.t) →
         list ((string * string) * InventoryItem.t))
    (s : FoodSupplyChain) : FoodSupplyChain :=
  mkChain (order_objs s) (products s) (locations s) (f (inventory s))
    (orders s) (deliveries s).

Definition set_order_objs (f : list Order.t → list Order.t)
    (s : FoodSupplyChain) : FoodSupplyChain :=
  mkChain (f (order_objs s)) (products s) (locations s) (inventory s)
    (orders s) (deliveries s).

Definition set_orders (f : gmap string nat → gmap string nat)
    (s : FoodSupplyChain) : FoodSupplyChain :=
  mkChain (order_objs s) (products s) (locations s) (inventory s)
    (f (orders s)) (deliveries s).

Definition set_deliveries
    (f : gmap string Delivery.t → gmap string Delivery.t)
    (s : FoodSupplyChain) : FoodSupplyChain :=
  mkChain (order_objs s) (products s) (locations s) (inventory s)
    (orders s) (f (deliveries s)).

(** ** Printed lines, exceptions and results *)

(** One constructor per [print] of the registry, with the values that the
    format string interpolates. *)
Inductive Msg :=
  | ProductAdded (name : string)
  | ProductExists (product_id : string)
  | LocationAdded (name : string)
  | LocationExists (location_id : string)
  | UnitsAdded (quantity : Z) (product_name location_name : string)
  | InvalidIds
  | ProductNotFound (product_id : string)
  | OrderPlaced (order_id customer : string)
  | OrderNotFound (order_id : string)
  | InsufficientStock (product_name order_id : string)
  | Shipped (quantity : Z) (product_name location_name order_id : string)
  | OrderFulfilled (order_id : string)
  | NotYetFulfilled (order_id : string)
  | DeliveryScheduled (delivery_id order_id : string)
  | DeliveryStatusUpdated (delivery_id new_status : string)
  | DeliveryNotFound (delivery_id : string)
  | ReportHeader
  | ReportEmpty
  | ReportItem (product_name location_name : string) (quantity : Z)
  | ReportFooter.

Definition newline : string := String (Ascii.ascii_of_nat 10) "".

(** The text of each printed line. *)
Definition render (m : Msg) : string :=
  match m with
  | ProductAdded n => "Product '" +:+ n +:+ "' added."
  | ProductExists i => "Product with ID '" +:+ i +:+ "' already exists."
  | LocationAdded n => "Location '" +:+ n +:+ "' added."
  | LocationExists i => "Location with ID '" +:+ i +:+ "' already exists."
  | UnitsAdded q p l =>
      pretty q +:+ " units of '" +:+ p +:+ "' added to '" +:+ l +:+ "'."
  | InvalidIds => "Invalid product ID or location ID."
  | ProductNotFound i => "Warning: Product with ID '" +:+ i +:+ "' not found."
  | OrderPlaced o c => "Order '" +:+ o +:+ "' placed by '" +:+ c +:+ "'."
  | OrderNotFound o => "Order with ID '" +:+ o +:+ "' not found."
  | InsufficientStock p o =>
      "Insufficient stock of '" +:+ p +:+ "' to fulfill order '" +:+ o +:+ "'."
  | Shipped q p l o =>
      "Shipped " +:+ pretty q +:+ " units of '" +:+ p +:+ "' from '" +:+ l
      +:+ "' for order '" +:+ o +:+ "'."
  | OrderFulfilled o => "Order '" +:+ o +:+ "' has been fulfilled."
  | NotYetFulfilled o =>
      "Order '" +:+ o
      +:+ "' is not yet fulfilled and cannot be scheduled for delivery."
  | DeliveryScheduled d o =>
      "Delivery '" +:+ d +:+ "' scheduled for order '" +:+ o +:+ "'."
  | DeliveryStatusUpdated d st =>
      "Delivery '" +:+ d +:+ "' status updated to '" +:+ st +:+ "'."
  | DeliveryNotFound d => "Delivery with ID '" +:+ d +:+ "' not found."
  | ReportHeader => newline +:+ "--- Inventory Report ---"
  | ReportEmpty => "No inventory available."
  | ReportItem p l q =>
      "Product: " +:+ p +:+ ", Location: " +:+ l +:+ ", Quantity: "
      +:+ pretty q
  | ReportFooter => "-----------------------" +:+ newline
  end.

(** [KeyError k] is Python's exception for [d[k]] on a missing key.
    [Dangling a] marks an address outside the object store; no Python state
    has one, and [store_ok] below rules it out. *)
Inductive exn :=
  | KeyError (k : string)
  | Dangling (a : nat).

Inductive outcome (A : Type) :=
  | Returns (a : A)
  | Raises (e : exn).
Arguments Returns {A} a.
Arguments Raises {A} e.

Record run (A : Type) := Run {
  state_of : FoodSupplyChain;
  printed : list Msg;
  result : outcome A
}.
Arguments Run {A} _ _ _.
Arguments state_of {A} _.
Arguments printed {A} _.
Arguments result {A} _.

(** ** Registry operations *)

Definition add_product (product : Product.t) (s : FoodSupplyChain) : run unit :=
  match products s !! Product.product_id product with
  | None =>
      Run (set_products <[Product.product_id product := product]> s)
        [ProductAdded (Product.name product)] (Returns ())
  | Some _ => Run s [ProductExists (Product.product_id product)] (Returns ())
  end.

Definition add_location (location : Location.t) (s : FoodSupplyChain)
    : run unit :=
  match locations s !! Location.location_id location with
  | None =>
      Run (set_locations <[Location.location_id location := location]> s)
        [LocationAdded (Location.name location)] (Returns ())
  | Some _ =>
      Run s [LocationExists (Location.location_id location)] (Returns ())
  end.

Definition add_inventory (product_id location_id : string) (quantity : Z)
    (s : FoodSupplyChain) : run unit :=
  match products s !! product_id, locations s !! location_id with
  | Some product, Some location =>
      let key := (product_id, location_id) in
      match dict_get key (inventory s) with
      | None =>
          Run (set_inventory
                 (dict_set key (InventoryItem.mk product location quantity)) s)
            [UnitsAdded quantity (Product.name product)
               (Location.name location)]
            (Returns ())
      | Some item =>
          let item' :=
            InventoryItem.set_quantity
              (InventoryItem.quantity item + quantity) item in
          Run (set_inventory (dict_set key item') s)
            [UnitsAdded quantity
               (Product.name (InventoryItem.product item'))
               (Location.name (InventoryItem.location item'))]
            (Returns ())
      end
  | _, _ => Run s [InvalidIds] (Returns ())
  end.

Definition get_inventory (product_id location_id : string)
    (s : FoodSupplyChain) : run (option InventoryItem.t) :=
  Run s [] (Returns (dict_get (product_id, location_id) (inventory s))).

(** [f"ORD-{n}"] and [f"DEL-{n}"] *)
Definition ord_id (n : nat) : string := "ORD-" +:+ pretty n.
Definition del_id (n : nat) : string := "DEL-" +:+ pretty n.

(** The loop of [place_order] over [order_items.items()]: a registered
    product is added to the new order, any other is warned about and
    skipped. *)
Fixpoint place_items (order_items : list (string * Z))
    (products : gmap string Product.t) (new_order : Order.t)
    : Order.t * list Msg :=
  match order_items with
  | [] => (new_order, [])
  | (product_id, quantity) :: rest =>
      match products !! product_id with
      | Some _ =>
          place_items rest products (Order.add_item product_id quantity new_order)
      | None =>
          let '(o, log) := place_items rest products new_order in
          (o, ProductNotFound product_id :: log)
      end
  end.

(** [today] is what [datetime.date.today()] answers during the call.  The
    result is the address of the new [Order] object, which goes to the end
    of the store. *)
Definition place_order (customer : string) (order_items : list (string * Z))
    (today : Date) (s : FoodSupplyChain) : run nat :=
  let order_id := ord_id (size (orders s) + 1)%nat in
  let '(new_order, log) :=
    place_items order_items (products s) (Order.init order_id customer today) in
  let a := length (order_objs s) in
  Run (set_orders <[order_id := a]> (set_order_objs (λ h, h ++ [new_order]) s))
    (log ++ [OrderPlaced order_id customer])
    (Returns a).

(** The inner loop of [fulfill_order]: the position and the item of the
    first entry of the inventory, in insertion order, whose key names the
    product and whose quantity is at least the quantity needed. *)
Fixpoint find_inventory (product_id : string) (quantity_needed : Z)
    (inv : list ((string * string) * InventoryItem.t))
    : option (nat * InventoryItem.t) :=
  match inv with
  | [] => None
  | ((inv_prod_id, _), inventory_item) :: rest =>
      if decide (inv_prod_id = product_id
                 ∧ quantity_needed ≤ InventoryItem.quantity inventory_item)
      then Some (0%nat, inventory_item)
      else prod_map S id <$> find_inventory product_id quantity_needed rest
  end.

(** [found_inventory.quantity -= quantity_needed] on the item at position
    [i] of the inventory. *)
Definition ship (i : nat) (quantity_needed : Z) (s : FoodSupplyChain)
    : FoodSupplyChain :=
  set_inventory
    (alter (prod_map id (λ it,
       InventoryItem.set_quantity
         (InventoryItem.quantity it - quantity_needed) it)) i) s.

(** The outer loop of [fulfill_order] over [order.items.items()].  It
    returns [true] when it runs to its end and [false] when it leaves the
    method through [return False]; [self.products[product_id]] raises
    [KeyError] for an unregistered product, in the shipping branch after
    the quantity has been decremented. *)
Fixpoint fulfill_items (order_id : string) (items : list (string * Z))
    (s : FoodSupplyChain) : run bool :=
  match items with
  | [] => Run s [] (Returns true)
  | (product_id, quantity_needed) :: rest =>
      match find_inventory product_id quantity_needed (inventory s) with
      | None =>
          match products s !! product_id with
          | None => Run s [] (Raises (KeyError product_id))
          | Some p =>
              Run s [InsufficientStock (Product.name p) order_id]
                (Returns false)
          end
      | Some (i, found_inventory) =>
          let s' := ship i quantity_needed s in
          match products s' !! product_id with
          | None => Run s' [] (Raises (KeyError product_id))
          | Some p =>
              let r := fulfill_items order_id rest s' in
              Run (state_of r)
                (Shipped quantity_needed (Product.name p)
                   (Location.name (InventoryItem.location found_inventory))
                   order_id :: printed r)
                (result r)
          end
      end
  end.

Definition fulfill_order (order_id : string) (s : FoodSupplyChain)
    : run bool :=
  match orders s !! order_id with
  | None => Run s [OrderNotFound order_id] (Returns false)
  | Some a =>
      match order_objs s !! a with
      | None => Run s [] (Raises (Dangling a))
      | Some order =>
          let r := fulfill_items order_id (Order.items order) s in
          match result r with
          | Returns true =>
              Run (set_order_objs
                     (alter (Order.update_status "Fulfilled") a) (state_of r))
                (printed r ++ [OrderFulfilled order_id])
                (Returns true)
          | _ => r
          end
      end
  end.

Definition schedule_delivery (order_id : string) (delivery_date : option Date)
    (s : FoodSupplyChain) : run (option Delivery.t) :=
  match orders s !! order_id with
  | None => Run s [OrderNotFound order_id] (Returns None)
  | Some a =>
      match order_objs s !! a with
      | None => Run s [] (Raises (Dangling a))
      | Some order =>
          if decide (Order.status order ≠ "Fulfilled")
          then Run s [NotYetFulfilled order_id] (Returns None)
          else
            let delivery_id := del_id (size (deliveries s) + 1)%nat in
            let new_delivery := Delivery.init delivery_id a delivery_date in
            Run (set_deliveries <[delivery_id := new_delivery]> s)
              [DeliveryScheduled delivery_id order_id]
              (Returns (Some new_delivery))
      end
  end.

Definition update_delivery_status (delivery_id new_status : string)
    (s : FoodSupplyChain) : run unit :=
  match deliveries s !! delivery_id with
  | Some _ =>
      Run (set_deliveries (alter (Delivery.update_status new_status) delivery_id) s)
        [DeliveryStatusUpdated delivery_id new_status] (Returns ())
  | None => Run s [DeliveryNotFound delivery_id] (Returns ())
  end.

Definition track_delivery (delivery_id : string) (s : FoodSupplyChain)
    : run (option Delivery.t) :=
  match deliveries s !! delivery_id with
  | Some d => Run s [] (Returns (Some d))
  | None => Run s [DeliveryNotFound delivery_id] (Returns None)
  end.

Definition generate_inventory_report (s : FoodSupplyChain) : run unit :=
  let body :=
    match inventory s with
    | [] => [ReportEmpty]
    | inv =>
        (λ e, ReportItem
                (Product.name (InventoryItem.product e.2))
                (Location.name (InventoryItem.location e.2))
                (InventoryItem.quantity e.2)) <$> inv
    end in
  Run s (ReportHeader :: body ++ [ReportFooter]) (Returns ()).

(** ** Sequences of calls *)

Inductive call :=
  | AddProduct (product : Product.t)
  | AddLocation (location : Location.t)
  | AddInventory (product_id location_id : string) (quantity : Z)
  | GetInventory (product_id location_id : string)
  | PlaceOrder (customer : string) (order_items : list (string * Z))
      (today : Date)
  | FulfillOrder (order_id : string)
  | ScheduleDelivery (order_id : string) (delivery_date : option Date)
  | UpdateDeliveryStatus (delivery_id new_status : string)
  | TrackDelivery (delivery_id : string)
  | GenerateInventoryReport.

(** The registry after a call; what a call mutated stays mutated when the
    call raises. *)
Definition exec (c : call) (s : FoodSupplyChain) : FoodSupplyChain :=
  match c with
  | AddProduct p => state_of (add_product p s)
  | AddLocation l => state_of (add_location l s)
  | AddInventory p l q => state_of (add_inventory p l q s)
  | GetInventory p l => state_of (get_inventory p l s)
  | PlaceOrder c items today => state_of (place_order c items today s)
  | FulfillOrder o => state_of (fulfill_order o s)
  | ScheduleDelivery o d => state_of (schedule_delivery o d s)
  | UpdateDeliveryStatus d st => state_of (update_delivery_status d st s)
  | TrackDelivery d => state_of (track_delivery d s)
  | GenerateInventoryReport => state_of (generate_inventory_report s)
  end.

(** The registries that calls of the operations build from a fresh one. *)
Inductive reachable : FoodSupplyChain → Prop :=
  | reachable_new : reachable new_chain
  | reachable_exec c s : reachable s → reachable (exec c s).

(** ** The example of the source file *)

Definition apple : Product.t :=
  Product.mk "PROD-001" "Apple" "Fruits" (Some (mkDate 2025 5 15)).
Definition banana : Product.t :=
  Product.mk "PROD-002" "Banana" "Fruits" (Some (mkDate 2025 4 25)).
Definition milk : Product.t :=
  Product.mk "PROD-003" "Milk" "Dairy" (Some (mkDate 2025 4 20)).
Definition farm_a : Location.t := Location.mk "LOC-001" "Farm A" "Farm".
Definition warehouse_x : Location.t :=
  Location.mk "LOC-002" "Warehouse X" "Warehouse".
Definition retailer_y : Location.t :=
  Location.mk "LOC-003" "Retailer Y" "Retailer".

Definition stocked_chain : FoodSupplyChain :=
  foldl (flip exec) new_chain
    [AddProduct apple; AddProduct banana; AddProduct milk;
     AddLocation farm_a; AddLocation warehouse_x; AddLocation retailer_y;
     AddInventory "PROD-001" "LOC-002" 100;
     AddInventory "PROD-002" "LOC-002" 150;
     AddInventory "PROD-003" "LOC-002" 50;
     AddInventory "PROD-001" "LOC-003" 20;
     AddInventory "PROD-003" "LOC-003" 10].

Definition demo_today : Date := mkDate 2025 4 17.

Definition ordered_chain : FoodSupplyChain :=
  exec (PlaceOrder "Alice" [("PROD-001", 5); ("PROD-003", 2)] demo_today)
    stocked_chain.

(** An order whose second line item asks for more bananas than any
    location holds. *)
Definition short_chain : FoodSupplyChain :=
  exec (PlaceOrder "Carol" [("PROD-001", 5); ("PROD-002", 500)] demo_today)
    stocked_chain.

(** ** Predicates on registries *)

(** No inventory item holds a negative quantity. *)
Definition inventory_nonneg (s : FoodSupplyChain) : Prop :=
  Forall (λ e, 0 ≤ InventoryItem.quantity e.2) (inventory s).

(** The quantity held for a product at a location, when there is an
    inventory item for the pair. *)
Definition stock (product_id location_id : string) (s : FoodSupplyChain)
    : option Z :=
  InventoryItem.quantity <$> dict_get (product_id, location_id) (inventory s).

(** The order registered under an id: the object that [self.orders[id]]
    refers to. *)
Definition order_of (order_id : string) (s : FoodSupplyChain)
    : option Order.t :=
  a ← orders s !! order_id; order_objs s !! a.

(** The entry at position [i] of the inventory is for [product_id] and
    holds at least [quantity_needed]. *)
Definition sufficient_at (product_id : string) (quantity_needed : Z)
    (inv : list ((string * string) * InventoryItem.t)) (i : nat) : Prop :=
  ∃ location_id item,
    inv !! i = Some ((product_id, location_id), item)
    ∧ quantity_needed ≤ InventoryItem.quantity item.

(** Position [i] is the first sufficient entry in insertion order. *)
Definition first_fit (product_id : string) (quantity_needed : Z)
    (inv : list ((string * string) * InventoryItem.t)) (i : nat) : Prop :=
  sufficient_at product_id quantity_needed inv i
  ∧ ∀ j, (j < i)%nat → ¬ sufficient_at product_id quantity_needed inv j.

(** Every line item can be served from a single entry of the inventory. *)
Definition satisfiable (items : list (string * Z))
    (inv : list ((string * string) * InventoryItem.t)) : Prop :=
  ∀ p q, (p, q) ∈ items → ∃ i, sufficient_at p q inv i.

(** The quantity of the inventory item at position [i]. *)
Definition quantity_at (i : nat) (s : FoodSupplyChain) : option Z :=
  (λ e, InventoryItem.quantity e.2) <$> inventory s !! i.

(** The keys of a dictionary of generated ids are the first ids. *)
Definition seq_keys {V} (mk_id : nat → string) (m : gmap string V) : Prop :=
  ∀ k, is_Some (m !! k) → ∃ n, (1 ≤ n ≤ size m)%nat ∧ k = mk_id n.

(** Every address held by [orders] or by a delivery is in the store. *)
Definition store_ok (s : FoodSupplyChain) : Prop :=
  (∀ order_id a, orders s !! order_id = Some a →
     (a < length (order_objs s))%nat)
  ∧ (∀ delivery_id d, deliveries s !! delivery_id = Some d →
       (Delivery.order d < length (order_objs s))%nat).

(** Every line item of every order names a registered product. *)
Definition items_registered (s : FoodSupplyChain) : Prop :=
  ∀ a o product_id quantity,
    order_objs s !! a = Some o →
    (product_id, quantity) ∈ Order.items o →
    is_Some (products s !! product_id).

(** The item dictionary of every order has pairwise distinct keys. *)
Definition items_ok (s : FoodSupplyChain) : Prop :=
  ∀ a o, order_objs s !! a = Some o → dict_ok (Order.items o).

Record registry_inv (s : FoodSupplyChain) : Prop := {
  inv_store : store_ok s;
  inv_items_registered : items_registered s;
  inv_items_ok : items_ok s;
  inv_inventory_ok : dict_ok (inventory s);
  inv_orders_seq : seq_keys ord_id (orders s);
  inv_deliveries_seq : seq_keys del_id (deliveries s)
}.

(** The number of [place_order] calls in a sequence of calls. *)
Definition is_place_order (c : call) : bool :=
  match c with
  | PlaceOrder _ _ _ => true
  | _ => false
  end.

Definition orders_placed (cs : list call) : nat :=
  length (filter (λ c, is_place_order c = true) cs).

(** ** Further predicates *)

(** The sum of the quantities of all inventory items. *)
Definition total_stock (s : FoodSupplyChain) : Z :=
  foldr (λ e acc, InventoryItem.quantity e.2 + acc) 0 (inventory s).

(** The sum of the quantities that the line items ask for. *)
Definition ordered_total (items : list (string * Z)) : Z :=
  foldr (λ e acc, e.2 + acc) 0 items.

(** A call that does not add a negative amount of stock. *)
Definition adds_nonneg (c : call) : Prop :=
  match c with
  | AddInventory _ _ quantity => 0 ≤ quantity
  | _ => True
  end.

(** Two order objects that differ at most in their status. *)
Definition same_order_but_status (o o' : Order.t) : Prop :=
  Order.order_id o' = Order.order_id o
  ∧ Order.customer o' = Order.customer o
  ∧ Order.order_date o' = Order.order_date o
  ∧ Order.items o' = Order.items o.

(** Products and locations are registered under their own ids, and every
    inventory item holds the product and the location registered under the
    ids of its key. *)
Definition references_ok (s : FoodSupplyChain) : Prop :=
  (∀ k p, products s !! k = Some p → Product.product_id p = k)
  ∧ (∀ k l, locations s !! k = Some l → Location.location_id l = k)
  ∧ ∀ k item, (k, item) ∈ inventory s →
      products s !! k.1 = Some (InventoryItem.product item)
      ∧ locations s !! k.2 = Some (InventoryItem.location item).

(** The [n]th order object of the store is registered under [ORD-n], bears
    that id, and nothing else is registered. *)
Definition orders_ok (s : FoodSupplyChain) : Prop :=
  size (orders s) = length (order_objs s)
  ∧ (∀ order_id a, orders s !! order_id = Some a →
       order_id = ord_id (a + 1)
       ∧ (Order.order_id <$> order_objs s !! a) = Some order_id)
  ∧ ∀ a, (a < length (order_objs s))%nat →
      orders s !! ord_id (a + 1) = Some a.

(** Every order is pending or fulfilled. *)
Definition statuses_ok (s : FoodSupplyChain) : Prop :=
  ∀ a o, order_objs s !! a = Some o →
    Order.status o = "Pending" ∨ Order.status o = "Fulfilled".

(** Every delivery is registered under its own id and refers to a fulfilled
    order. *)
Definition deliveries_ok (s : FoodSupplyChain) : Prop :=
  ∀ delivery_id d, deliveries s !! delivery_id = Some d →
    Delivery.delivery_id d = delivery_id
    ∧ (Order.status <$> order_objs s !! Delivery.order d) = Some "Fulfilled".

(** * Properties *)

(** The run of the source file's example. *)
Example demo_fulfill :
  let r := fulfill_order "ORD-1" ordered_chain in
  result r = Returns true
  ∧ stock "PROD-001" "LOC-002" (state_of r) = Some 95
  ∧ stock "PROD-003" "LOC-002" (state_of r) = Some 48
  ∧ render <$> printed r =
      ["Shipped 5 units of 'Apple' from 'Warehouse X' for order 'ORD-1'.";
       "Shipped 2 units of 'Milk' from 'Warehouse X' for order 'ORD-1'.";
       "Order 'ORD-1' has been fulfilled."].
Proof. vm_compute. done. Qed.

(** ** Dictionaries *)

Section DictFacts.
Context {K V : Type} `{EqDecision K}.
Implicit Types (d : list (K * V)) (k : K) (v : V).

Lemma dict_get_set d k k' v :
  dict_get k (dict_set k' v d) = if decide (k' = k) then Some v else dict_get k d.
Proof.
  induction d as [|[k0 v0] d IH]; simpl.
  - repeat case_decide; congruence.
  - repeat (case_decide; simpl); try congruence.
Qed.

Lemma dict_get_set_eq d k v : dict_get k (dict_set k v d) = Some v.
Proof. rewrite dict_get_set. by case_decide. Qed.

Lemma dict_get_Some_elem d k v : dict_get k d = Some v → (k, v) ∈ d.
Proof.
  induction d as [|[k0 v0] d IH]; simpl; [done|].
  case_decide; intros ?; simplify_eq; [left | right; auto].
Qed.

Lemma dict_get_None d k v : dict_get k d = None → (k, v) ∉ d.
Proof.
  induction d as [|[k0 v0] d IH]; simpl; [intros _; apply not_elem_of_nil|].
  case_decide; [done|]. intros Hd [?|?]%elem_of_cons; simplify_eq.
  by apply IH in Hd.
Qed.

Lemma dict_set_keys d k v :
  (dict_set k v d).*1 = if dict_mem k d then d.*1 else d.*1 ++ [k].
Proof.
  unfold dict_mem. induction d as [|[k0 v0] d IH]; simpl.
  - done.
  - destruct (decide (k0 = k)) as [->|Hne]; simpl.
    + done.
    + fold (fmap (M:=list) (@fst K V)). rewrite IH. by destruct (bool_decide _).
Qed.

Lemma dict_mem_keys d k : dict_mem k d = true ↔ k ∈ d.*1.
Proof.
  unfold dict_mem. rewrite bool_decide_eq_true.
  induction d as [|[k0 v0] d IH]; simpl.
  - split; [by intros [??] | by intros ?%elem_of_nil].
  - case_decide; subst.
    + split; [intros _; left | eauto].
    + rewrite IH, elem_of_cons. split; [by right | by intros [?|?]].
Qed.

Lemma dict_set_ok d k v : dict_ok d → dict_ok (dict_set k v d).
Proof.
  unfold dict_ok. intros Hd. rewrite dict_set_keys.
  destruct (dict_mem k d) eqn:Hk; [done|].
  apply NoDup_app. split_and!; [done| |apply NoDup_singleton].
  intros x Hx ->%list_elem_of_singleton.
  apply dict_mem_keys in Hx. congruence.
Qed.

Lemma dict_set_elem d k v k' v' :
  (k', v') ∈ dict_set k v d → (k', v') ∈ d ∨ (k' = k ∧ v' = v).
Proof.
  induction d as [|[k0 v0] d IH]; simpl.
  - intros [= -> ->]%list_elem_of_singleton. by right.
  - case_decide; subst; rewrite !elem_of_cons.
    + intros [[= -> ->]|?]; auto.
    + intros [?|[?|?]%IH]; auto.
Qed.

End DictFacts.

(** ** First-fit search *)

Section FindInventory.
Implicit Types (inv : list ((string * string) * InventoryItem.t)).

Lemma find_inventory_Some p q inv i it :
  find_inventory p q inv = Some (i, it) →
  (∃ l, inv !! i = Some ((p, l), it))
  ∧ q ≤ InventoryItem.quantity it
  ∧ ∀ j, (j < i)%nat → ¬ sufficient_at p q inv j.
Proof.
  revert i. induction inv as [|[[p0 l0] it0] inv IH]; intros i; simpl; [done|].
  destruct (decide _) as [[-> Hq]|Hno].
  - intros [= <- <-]. split_and!; [by eexists|done|lia].
  - destruct (find_inventory p q inv) as [[i' it']|] eqn:Hfind; [|done].
    intros [= <- <-]. destruct (IH _ eq_refl) as (Hl & Hq & Hfirst).
    split_and!; [done..|].
    intros [|j] Hj (l & item & Hat & Hle); simplify_eq/=.
    + by apply Hno.
    + apply (Hfirst j); [lia|]. by exists l, item.
Qed.

Lemma find_inventory_None p q inv :
  find_inventory p q inv = None ↔ ∀ j, ¬ sufficient_at p q inv j.
Proof.
  induction inv as [|[[p0 l0] it0] inv IH]; simpl.
  - split; [|done]. by intros _ j (l & item & ? & _).
  - destruct (decide _) as [[-> Hq]|Hno].
    + split; [done|]. intros Hall. destruct (Hall 0%nat). by exists l0, it0.
    + destruct (find_inventory p q inv) as [[i' it']|] eqn:Hfind; simpl.
      * split; [done|]. intros Hall.
        assert (Some (i', it') = None) as [=]. apply IH.
        intros j (l & item & Hat & Hle). apply (Hall (S j)). by exists l, item.
      * split; [|done]. intros _ [|j] (l & item & Hat & Hle); simplify_eq/=.
        -- by apply Hno.
        -- destruct IH as [IH _]. apply (IH eq_refl j). by exists l, item.
Qed.

(** The search finds the earliest sufficient entry. *)
Lemma find_inventory_first p q inv i :
  sufficient_at p q inv i →
  (∀ j, (j < i)%nat → ¬ sufficient_at p q inv j) →
  ∃ it, find_inventory p q inv = Some (i, it).
Proof.
  intros Hi Hfirst.
  destruct (find_inventory p q inv) as [[i' it']|] eqn:Hfind.
  - apply find_inventory_Some in Hfind as ([l Hl] & Hq & Hfirst').
    destruct (lt_eq_lt_dec i i') as [[Hlt| ->]|Hgt]; [|by eexists|].
    + by destruct (Hfirst' i Hlt).
    + destruct (Hfirst i' Hgt). by exists l, it'.
  - rewrite find_inventory_None in Hfind. by destruct (Hfind i).
Qed.

(** Changing the item of an entry for another product does not change the
    search. *)
Lemma find_inventory_alter_other p q inv i f p' l' it' :
  inv !! i = Some ((p', l'), it') → p' ≠ p →
  find_inventory p q (alter (prod_map id f) i inv) = find_inventory p q inv.
Proof.
  revert i. induction inv as [|[[p0 l0] it0] inv IH]; intros [|i]; simpl;
    try done.
  - intros [= -> -> ->] Hne.
    rewrite !decide_False by (by intros [? _]). done.
  - intros Hi Hne. destruct (decide _); [done|].
    f_equal. exact (IH i Hi Hne).
Qed.

End FindInventory.

(** ** Duplicate registration *)

(** C7: re-adding a product whose id is registered, and likewise a location,
    prints the already-exists line, returns normally and leaves the whole
    registry as it was. *)
Theorem add_existing_is_noop s (product : Product.t) (location : Location.t) :
  (is_Some (products s !! Product.product_id product) →
     add_product product s
     = Run s [ProductExists (Product.product_id product)] (Returns ()))
  ∧ (is_Some (locations s !! Location.location_id location) →
       add_location location s
       = Run s [LocationExists (Location.location_id location)] (Returns ())).
Proof.
  split; intros [x Hx]; unfold add_product, add_location; by rewrite Hx.
Qed.

Lemma add_existing_is_noop_witness :
  add_product apple stocked_chain
  = Run stocked_chain [ProductExists "PROD-001"] (Returns ())
  ∧ add_location farm_a stocked_chain
    = Run stocked_chain [LocationExists "LOC-001"] (Returns ()).
Proof.
  destruct (add_existing_is_noop stocked_chain apple farm_a) as [Hp Hl].
  split.
  - apply Hp. apply (bool_decide_unpack _). vm_compute. exact I.
  - apply Hl. apply (bool_decide_unpack _). vm_compute. exact I.
Defined.

(** ** Fulfillment never drives a quantity below zero *)

Lemma ship_nonneg s p q i it :
  find_inventory p q (inventory s) = Some (i, it) →
  inventory_nonneg s → inventory_nonneg (ship i q s).
Proof.
  intros ([l Hl] & Hq & _)%find_inventory_Some Hs.
  unfold inventory_nonneg, ship. simpl.
  apply Forall_alter; [done|].
  intros [k item] Hi. simplify_eq/=. lia.
Qed.

Lemma fulfill_items_nonneg order_id items s :
  inventory_nonneg s →
  inventory_nonneg (state_of (fulfill_items order_id items s)).
Proof.
  revert s. induction items as [|[p q] items IH]; intros s Hs; simpl; [done|].
  destruct (find_inventory p q (inventory s)) as [[i it]|] eqn:Hfind.
  - apply (ship_nonneg _ _ _ _ _ Hfind) in Hs.
    simpl. destruct (products s !! p); simpl; auto.
  - by destruct (products s !! p).
Qed.

(** C4: when no inventory item holds a negative quantity before a call of
    [fulfill_order], none does after it, whatever the call returns or
    raises. *)
Theorem fulfill_order_keeps_nonneg s order_id :
  inventory_nonneg s →
  inventory_nonneg (state_of (fulfill_order order_id s)).
Proof.
  intros Hs. unfold fulfill_order.
  destruct (orders s !! order_id) as [a|]; [|done].
  destruct (order_objs s !! a) as [order|]; [|done].
  pose proof (fulfill_items_nonneg order_id (Order.items order) s Hs) as Hr.
  destruct (fulfill_items _ _ _) as [s' log [[]|e]]; done.
Qed.

Lemma fulfill_order_keeps_nonneg_witness :
  inventory_nonneg ordered_chain
  ∧ inventory_nonneg (state_of (fulfill_order "ORD-1" ordered_chain)).
Proof.
  assert (inventory_nonneg ordered_chain) as Hs.
  { unfold inventory_nonneg. vm_compute. repeat constructor; discriminate. }
  split; [exact Hs|].
  exact (fulfill_order_keeps_nonneg ordered_chain "ORD-1" Hs).
Defined.

(** ** Inventory accumulation *)

Lemma add_inventory_stock s p l q :
  is_Some (products s !! p) → is_Some (locations s !! l) →
  stock p l (state_of (add_inventory p l q s))
  = Some (default 0 (stock p l s) + q).
Proof.
  intros [product Hp] [location Hl]. unfold add_inventory, stock.
  rewrite Hp, Hl.
  destruct (dict_get (p, l) (inventory s)) as [item|] eqn:Hget; simpl;
    by rewrite dict_get_set_eq.
Qed.

Lemma add_inventory_registered s p l q :
  products (state_of (add_inventory p l q s)) = products s
  ∧ locations (state_of (add_inventory p l q s)) = locations s.
Proof.
  unfold add_inventory.
  destruct (products s !! p), (locations s !! l); try done.
  by destruct (dict_get _ _).
Qed.

(** On a pair whose item already holds [q0], both calls increment it. *)
Lemma add_inventory_twice_on_stock s p l q0 q1 q2 :
  is_Some (products s !! p) → is_Some (locations s !! l) →
  stock p l s = Some q0 →
  stock p l (state_of (add_inventory p l q2 (state_of (add_inventory p l q1 s))))
  = Some (q0 + q1 + q2).
Proof.
  intros Hp Hl Hq0.
  destruct (add_inventory_registered s p l q1) as [HP HL].
  rewrite add_inventory_stock by by rewrite ?HP, ?HL.
  rewrite add_inventory_stock by done. by rewrite Hq0.
Qed.

(** C5: for a registered product [p] and a registered location [l] whose
    pair has no inventory item yet, [add_inventory(p, l, q1)] creates the
    item, made of the registered product, the registered location and the
    quantity [q1]; [add_inventory(p, l, q2)] then increments it, so that the
    item keyed by the pair is the same product and location with quantity
    [q1 + q2]. *)
Theorem add_inventory_accumulates s p l q1 q2 product location :
  products s !! p = Some product →
  locations s !! l = Some location →
  get_inventory p l s = Run s [] (Returns None) →
  let s1 := state_of (add_inventory p l q1 s) in
  let s2 := state_of (add_inventory p l q2 s1) in
  result (get_inventory p l s1)
  = Returns (Some (InventoryItem.mk product location q1))
  ∧ result (get_inventory p l s2)
    = Returns (Some (InventoryItem.mk product location (q1 + q2)))
  ∧ stock p l s1 = Some q1
  ∧ stock p l s2 = Some (q1 + q2).
Proof.
  intros Hp Hl [= Hnone] s1 s2.
  assert (dict_get (p, l) (inventory s1)
          = Some (InventoryItem.mk product location q1)) as H1.
  { unfold s1, add_inventory. rewrite Hp, Hl, Hnone. simpl.
    apply dict_get_set_eq. }
  assert (dict_get (p, l) (inventory s2)
          = Some (InventoryItem.mk product location (q1 + q2))) as H2.
  { destruct (add_inventory_registered s p l q1) as [HP HL].
    unfold s2, add_inventory. fold s1 in HP, HL.
    rewrite HP, HL, Hp, Hl, H1. simpl. apply dict_get_set_eq. }
  unfold get_inventory, stock. simpl. by rewrite H1, H2.
Qed.

Lemma add_inventory_accumulates_witness :
  let s1 := state_of (add_inventory "PROD-002" "LOC-003" 4 stocked_chain) in
  let s2 := state_of (add_inventory "PROD-002" "LOC-003" 6 s1) in
  result (get_inventory "PROD-002" "LOC-003" stocked_chain) = Returns None
  ∧ result (get_inventory "PROD-002" "LOC-003" s1)
    = Returns (Some (InventoryItem.mk banana retailer_y 4))
  ∧ result (get_inventory "PROD-002" "LOC-003" s2)
    = Returns (Some (InventoryItem.mk banana retailer_y 10)).
Proof.
  assert (products stocked_chain !! "PROD-002" = Some banana) as Hp
    by (vm_compute; reflexivity).
  assert (locations stocked_chain !! "LOC-003" = Some retailer_y) as Hl
    by (vm_compute; reflexivity).
  assert (get_inventory "PROD-002" "LOC-003" stocked_chain
          = Run stocked_chain [] (Returns None)) as Hnone
    by (unfold get_inventory; f_equal; vm_compute; reflexivity).
  destruct (add_inventory_accumulates stocked_chain "PROD-002" "LOC-003" 4 6
              banana retailer_y Hp Hl Hnone) as (H1 & H2 & _).
  split; [by rewrite Hnone|]. split; [exact H1 | exact H2].
Defined.

(** Accumulation on the stock of the source file's example: 100 apples at
    Warehouse X, then 1 and 2 more. *)
Example add_inventory_on_demo_stock :
  stock "PROD-001" "LOC-002"
    (state_of (add_inventory "PROD-001" "LOC-002" 2
       (state_of (add_inventory "PROD-001" "LOC-002" 1 stocked_chain))))
  = Some 103.
Proof. vm_compute. reflexivity. Qed.

(** ** Placing orders *)

Lemma add_item_get o k k' q :
  k' ≠ k →
  dict_get k (Order.items (Order.add_item k' q o)) = dict_get k (Order.items o).
Proof.
  intros Hne. unfold Order.add_item. simpl.
  destruct (dict_get k' (Order.items o)); rewrite dict_get_set;
    by rewrite decide_False.
Qed.

Lemma add_item_elem o k q k' q' :
  (k', q') ∈ Order.items (Order.add_item k q o) →
  (k', q') ∈ Order.items o ∨ k' = k.
Proof.
  unfold Order.add_item. simpl.
  destruct (dict_get k (Order.items o));
    intros [?|[? _]]%dict_set_elem; auto.
Qed.

Lemma add_item_ok o k q :
  dict_ok (Order.items o) → dict_ok (Order.items (Order.add_item k q o)).
Proof.
  unfold Order.add_item. simpl.
  destruct (dict_get k (Order.items o)); apply dict_set_ok.
Qed.

Section PlaceItems.
Variable registered : gmap string Product.t.
Implicit Types (order_items : list (string * Z)) (o : Order.t).

Lemma place_items_fields order_items o :
  let o' := (place_items order_items registered o).1 in
  Order.order_id o' = Order.order_id o
  ∧ Order.customer o' = Order.customer o
  ∧ Order.order_date o' = Order.order_date o
  ∧ Order.status o' = Order.status o.
Proof.
  revert o. induction order_items as [|[p q] rest IH]; intros o; simpl; [done|].
  destruct (registered !! p).
  - apply (IH (Order.add_item p q o)).
  - specialize (IH o). by destruct (place_items rest registered o).
Qed.

(** An unregistered product gets no line item. *)
Lemma place_items_skips order_items o product_id :
  registered !! product_id = None →
  dict_get product_id (Order.items o) = None →
  dict_get product_id
    (Order.items (place_items order_items registered o).1) = None.
Proof.
  intros Hp. revert o.
  induction order_items as [|[p q] rest IH]; intros o Ho; simpl; [done|].
  destruct (registered !! p) eqn:Hreg.
  - apply IH. rewrite add_item_get; [done|]. congruence.
  - specialize (IH o Ho). by destruct (place_items rest registered o).
Qed.

(** An unregistered product of the request is warned about. *)
Lemma place_items_warns order_items o product_id quantity :
  (product_id, quantity) ∈ order_items →
  registered !! product_id = None →
  ProductNotFound product_id ∈ (place_items order_items registered o).2.
Proof.
  intros Hin Hp. revert o.
  induction order_items as [|[p q] rest IH]; intros o; simpl.
  { by apply elem_of_nil in Hin. }
  apply elem_of_cons in Hin as [[= <- <-]|Hin].
  - rewrite Hp. destruct (place_items rest registered o). simpl. left.
  - specialize (IH Hin). destruct (registered !! p); [apply IH|].
    specialize (IH o). destruct (place_items rest registered o).
    simpl. by right.
Qed.

(** Every line item of the new order names a registered product. *)
Lemma place_items_registered order_items o :
  (∀ p q, (p, q) ∈ Order.items o → is_Some (registered !! p)) →
  ∀ p q, (p, q) ∈ Order.items (place_items order_items registered o).1 →
         is_Some (registered !! p).
Proof.
  revert o. induction order_items as [|[p0 q0] rest IH]; intros o Ho; simpl;
    [done|].
  destruct (registered !! p0) eqn:Hreg.
  - apply IH. intros p q [?| ->]%add_item_elem; eauto.
  - specialize (IH o Ho). by destruct (place_items rest registered o).
Qed.

Lemma place_items_ok order_items o :
  dict_ok (Order.items o) →
  dict_ok (Order.items (place_items order_items registered o).1).
Proof.
  revert o. induction order_items as [|[p0 q0] rest IH]; intros o Ho; simpl;
    [done|].
  destruct (registered !! p0).
  - by apply IH, add_item_ok.
  - specialize (IH o Ho). by destruct (place_items rest registered o).
Qed.

End PlaceItems.

Lemma place_order_unfold customer order_items today s :
  let order_id := ord_id (size (orders s) + 1) in
  let placed :=
    place_items order_items (products s) (Order.init order_id customer today) in
  place_order customer order_items today s
  = Run (set_orders <[order_id := length (order_objs s)]>
           (set_order_objs (λ h, h ++ [placed.1]) s))
      (placed.2 ++ [OrderPlaced order_id customer])
      (Returns (length (order_objs s))).
Proof. unfold place_order. simpl. by destruct (place_items _ _ _). Qed.

(** C8: when the requested items name a product that is not registered,
    [place_order] still creates the order, registers it under the generated
    id and returns it; the order has no line item for that product, and the
    not-found warning for it is printed. *)
Theorem place_order_skips_unregistered s customer order_items today
    product_id quantity :
  (product_id, quantity) ∈ order_items →
  products s !! product_id = None →
  let r := place_order customer order_items today s in
  ∃ a o,
    result r = Returns a
    ∧ orders (state_of r) !! ord_id (size (orders s) + 1) = Some a
    ∧ order_objs (state_of r) !! a = Some o
    ∧ Order.order_id o = ord_id (size (orders s) + 1)
    ∧ Order.customer o = customer
    ∧ Order.status o = "Pending"
    ∧ dict_get product_id (Order.items o) = None
    ∧ (∀ q, (product_id, q) ∉ Order.items o)
    ∧ ProductNotFound product_id ∈ printed r.
Proof.
  intros Hin Hp r. unfold r. rewrite place_order_unfold. simpl.
  set (o0 := Order.init _ customer today).
  pose proof (place_items_fields (products s) order_items o0)
    as (Hid & Hc & _ & Hst).
  pose proof (place_items_skips (products s) order_items o0 product_id Hp eq_refl)
    as Hskip.
  eexists _, _. split_and!; [done| |by apply list_lookup_middle|done..| | |].
  - by rewrite lookup_insert_eq.
  - done.
  - intros q. by apply dict_get_None.
  - apply elem_of_app. left. by eapply place_items_warns.
Qed.

Lemma place_order_skips_unregistered_witness :
  ∃ a o,
    result (place_order "Bob" [("PROD-001", 3); ("PROD-999", 1)] demo_today
              stocked_chain) = Returns a
    ∧ order_objs (state_of (place_order "Bob"
                     [("PROD-001", 3); ("PROD-999", 1)] demo_today
                     stocked_chain)) !! a = Some o
    ∧ Order.order_id o = "ORD-1"
    ∧ Order.items o = [("PROD-001", 3)]
    ∧ ProductNotFound "PROD-999"
      ∈ printed (place_order "Bob" [("PROD-001", 3); ("PROD-999", 1)]
                   demo_today stocked_chain).
Proof.
  assert (("PROD-999", 1) ∈ [("PROD-001", 3); ("PROD-999", 1)]) as Hin
    by (right; left).
  assert (products stocked_chain !! "PROD-999" = None) as Hp
    by (vm_compute; reflexivity).
  destruct (place_order_skips_unregistered stocked_chain "Bob" _ demo_today
              _ _ Hin Hp) as (a & o & Hr & _ & Ho & _ & _ & _ & _ & _ & Hw).
  exists a, o. split_and!; [exact Hr | exact Ho | | | exact Hw].
  - vm_compute in Hr. injection Hr as <-. vm_compute in Ho.
    injection Ho as <-. reflexivity.
  - vm_compute in Hr. injection Hr as <-. vm_compute in Ho.
    injection Ho as <-. reflexivity.
Defined.

(** ** Generated ids *)

Lemma ord_id_inj : Inj (=) (=) ord_id.
Proof. intros n m [= H]. by apply (inj pretty). Qed.

Lemma del_id_inj : Inj (=) (=) del_id.
Proof. intros n m [= H]. by apply (inj pretty). Qed.

Section SeqKeys.
Context {V : Type} (mk_id : nat → string) (Hinj : Inj (=) (=) mk_id).
Implicit Types (m : gmap string V).

Lemma seq_keys_empty : seq_keys mk_id (∅ : gmap string V).
Proof. intros k [v Hv]. by rewrite lookup_empty in Hv. Qed.

(** The next id is not a key yet. *)
Lemma seq_keys_fresh m : seq_keys mk_id m → m !! mk_id (size m + 1) = None.
Proof.
  intros Hm. apply eq_None_not_Some. intros (n & Hn & Heq)%Hm.
  apply Hinj in Heq. lia.
Qed.

Lemma seq_keys_insert m v :
  seq_keys mk_id m → seq_keys mk_id (<[mk_id (size m + 1) := v]> m).
Proof.
  intros Hm k Hk.
  rewrite map_size_insert_None by by apply seq_keys_fresh.
  destruct (decide (mk_id (size m + 1) = k)) as [<-|Hne].
  - exists (size m + 1)%nat. split; [lia|done].
  - rewrite lookup_insert_ne in Hk by done.
    destruct (Hm k Hk) as (n & Hn & ->). exists n. split; [lia|done].
Qed.

Lemma seq_keys_alter m f k : seq_keys mk_id m → seq_keys mk_id (alter f k m).
Proof.
  intros Hm k' Hk'. rewrite lookup_alter_is_Some in Hk'.
  assert (size (alter f k m) = size m) as ->; [|by apply Hm].
  by rewrite <-!(size_dom (D:=gset string)), dom_alter_L.
Qed.

End SeqKeys.

(** ** What fulfillment leaves alone *)

Lemma alter_item_keys (inv : list ((string * string) * InventoryItem.t)) f i :
  (alter (prod_map id f) i inv).*1 = inv.*1.
Proof.
  revert i. induction inv as [|[k it] inv IH]; intros [|i]; simpl; try done.
  f_equal. apply IH.
Qed.

(** The loop of [fulfill_order] touches nothing but the quantities of
    inventory items. *)
Lemma fulfill_items_frame order_id items s :
  let s' := state_of (fulfill_items order_id items s) in
  order_objs s' = order_objs s
  ∧ products s' = products s
  ∧ locations s' = locations s
  ∧ orders s' = orders s
  ∧ deliveries s' = deliveries s
  ∧ (inventory s').*1 = (inventory s).*1.
Proof.
  revert s. induction items as [|[p q] items IH]; intros s; simpl; [done|].
  destruct (find_inventory p q (inventory s)) as [[i it]|].
  - destruct (products s !! p); simpl.
    + destruct (IH (ship i q s)) as (? & ? & ? & ? & ? & Hk).
      split_and!; try done. rewrite Hk. apply alter_item_keys.
    + split_and!; try done. apply alter_item_keys.
  - by destruct (products s !! p).
Qed.

Lemma fulfill_order_frame order_id s :
  let s' := state_of (fulfill_order order_id s) in
  length (order_objs s') = length (order_objs s)
  ∧ (∀ a, Order.items <$> order_objs s' !! a = Order.items <$> order_objs s !! a)
  ∧ products s' = products s
  ∧ locations s' = locations s
  ∧ orders s' = orders s
  ∧ deliveries s' = deliveries s
  ∧ (inventory s').*1 = (inventory s).*1.
Proof.
  unfold fulfill_order.
  destruct (orders s !! order_id) as [a|]; [|done].
  destruct (order_objs s !! a) as [order|]; [|done].
  pose proof (fulfill_items_frame order_id (Order.items order) s) as Hf.
  destruct (fulfill_items _ _ _) as [s' log [[]|e]]; simpl in *;
    destruct Hf as (Ho & ? & ? & ? & ? & ?); rewrite <-?Ho;
    split_and!; try done.
  - apply length_alter.
  - intros a'. rewrite list_lookup_alter. case_decide; subst; [|done].
    by destruct (order_objs s' !! a').
Qed.

(** ** The invariant of the registry *)

Lemma registry_inv_new : registry_inv new_chain.
Proof.
  split; try apply seq_keys_empty.
  - split; intros ? ? H; cbn in H; by rewrite lookup_empty in H.
  - intros a o p q H. cbn in H. by rewrite lookup_nil in H.
  - intros a o H. cbn in H. by rewrite lookup_nil in H.
  - apply NoDup_nil_2.
Qed.

Lemma registry_inv_add_product product s :
  registry_inv s → registry_inv (state_of (add_product product s)).
Proof.
  intros [Hst Hreg Hit Hinv Hord Hdel]. unfold add_product.
  destruct (products s !! Product.product_id product) eqn:Hp; [done|].
  split; try done. intros a o p q Ho Hin. simpl.
  destruct (decide (Product.product_id product = p)) as [<-|Hne].
  - rewrite lookup_insert_eq. by eexists.
  - rewrite lookup_insert_ne by done. by eapply Hreg.
Qed.

Lemma registry_inv_add_location location s :
  registry_inv s → registry_inv (state_of (add_location location s)).
Proof.
  intros [Hst Hreg Hit Hinv Hord Hdel]. unfold add_location.
  by destruct (locations s !! Location.location_id location).
Qed.

Lemma registry_inv_add_inventory p l q s :
  registry_inv s → registry_inv (state_of (add_inventory p l q s)).
Proof.
  intros [Hst Hreg Hit Hinv Hord Hdel]. unfold add_inventory.
  destruct (products s !! p), (locations s !! l); try done.
  destruct (dict_get _ _); split; try done; by apply dict_set_ok.
Qed.

Lemma registry_inv_place_order customer order_items today s :
  registry_inv s →
  registry_inv (state_of (place_order customer order_items today s)).
Proof.
  intros [[Hso Hsd] Hreg Hit Hinv Hord Hdel]. rewrite place_order_unfold.
  split; simpl; try done.
  - split; simpl; intros k x; rewrite length_app; simpl.
    + intros [[_ <-]|[_ Hk]]%lookup_insert_Some; [lia|].
      apply Hso in Hk. lia.
    + intros Hk%Hsd. lia.
  - intros a o p q [[_ Ho]|[_ <-]]%lookup_snoc_Some; simpl.
    + by eapply Hreg.
    + apply place_items_registered. by intros ?? ?%elem_of_nil.
  - intros a o [[_ Ho]|[_ <-]]%lookup_snoc_Some; simpl.
    + by eapply Hit.
    + apply place_items_ok, NoDup_nil_2.
  - apply seq_keys_insert; [apply ord_id_inj|done].
Qed.

Lemma registry_inv_fulfill_order order_id s :
  registry_inv s → registry_inv (state_of (fulfill_order order_id s)).
Proof.
  intros [[Hso Hsd] Hreg Hit Hinv Hord Hdel].
  destruct (fulfill_order_frame order_id s)
    as (Hlen & Hitems & Hp & Hl & Ho & Hd & Hk).
  assert (∀ a o, order_objs (state_of (fulfill_order order_id s)) !! a = Some o →
            ∃ o0, order_objs s !! a = Some o0 ∧ Order.items o0 = Order.items o)
    as Hback.
  { intros a o Ha. specialize (Hitems a). rewrite Ha in Hitems.
    destruct (order_objs s !! a) as [o0|]; [|done].
    injection Hitems as ->. by exists o0. }
  split.
  - split; intros k x; rewrite ?Ho, ?Hd, Hlen; [apply Hso | apply Hsd].
  - intros a o p q (o0 & Ha & Heq)%Hback Hin. rewrite Hp.
    eapply Hreg; [done|]. by rewrite Heq.
  - intros a o (o0 & Ha & Heq)%Hback. rewrite <-Heq. by eapply Hit.
  - unfold dict_ok. by rewrite Hk.
  - by rewrite Ho.
  - by rewrite Hd.
Qed.

Lemma registry_inv_schedule_delivery order_id delivery_date s :
  registry_inv s →
  registry_inv (state_of (schedule_delivery order_id delivery_date s)).
Proof.
  intros [[Hso Hsd] Hreg Hit Hinv Hord Hdel]. unfold schedule_delivery.
  destruct (orders s !! order_id) as [a|] eqn:Ha; [|done].
  destruct (order_objs s !! a) as [order|]; [|done].
  case_decide; [done|]. split; simpl; try done.
  - split; [done|]. simpl. intros k d.
    intros [[_ <-]|[_ Hk]]%lookup_insert_Some; simpl; eauto.
  - apply seq_keys_insert; [apply del_id_inj|done].
Qed.

Lemma registry_inv_update_delivery_status delivery_id new_status s :
  registry_inv s →
  registry_inv (state_of (update_delivery_status delivery_id new_status s)).
Proof.
  intros [[Hso Hsd] Hreg Hit Hinv Hord Hdel]. unfold update_delivery_status.
  destruct (deliveries s !! delivery_id) eqn:Hd; [|done].
  split; simpl; try done.
  - split; [done|]. simpl.
    intros k d [(_ & d0 & Hk & ->)|[_ Hk]]%lookup_alter_Some; simpl; eauto.
  - by apply seq_keys_alter.
Qed.

Lemma registry_inv_exec c s : registry_inv s → registry_inv (exec c s).
Proof.
  destruct c; simpl;
    auto using registry_inv_add_product, registry_inv_add_location,
      registry_inv_add_inventory, registry_inv_place_order,
      registry_inv_fulfill_order, registry_inv_schedule_delivery,
      registry_inv_update_delivery_status.
  unfold track_delivery. by destruct (deliveries s !! delivery_id).
Qed.

(** Every registry that the operations can build satisfies the invariant. *)
Lemma reachable_inv s : reachable s → registry_inv s.
Proof.
  induction 1; [apply registry_inv_new | by apply registry_inv_exec].
Qed.

Lemma reachable_calls cs s :
  reachable s → reachable (foldl (flip exec) s cs).
Proof.
  revert s. induction cs as [|c cs IH]; intros s Hs; simpl; [done|].
  apply IH. by constructor.
Qed.

Lemma stocked_chain_reachable : reachable stocked_chain.
Proof. apply reachable_calls. constructor. Qed.

Lemma ordered_chain_reachable : reachable ordered_chain.
Proof. constructor. apply stocked_chain_reachable. Qed.

(** ** Sequential order ids *)

Lemma place_order_size customer order_items today s :
  seq_keys ord_id (orders s) →
  size (orders (state_of (place_order customer order_items today s)))
  = S (size (orders s)).
Proof.
  intros Hs. rewrite place_order_unfold. simpl.
  apply map_size_insert_None, seq_keys_fresh; [apply ord_id_inj|done].
Qed.

Lemma place_order_seq customer order_items today s :
  seq_keys ord_id (orders s) →
  seq_keys ord_id (orders (state_of (place_order customer order_items today s))).
Proof.
  intros Hs. rewrite place_order_unfold. simpl.
  apply seq_keys_insert; [apply ord_id_inj|done].
Qed.

(** The operations that neither place nor fulfill an order, unfolded into
    their branches. *)
Ltac other_ops :=
  unfold add_product, add_location, add_inventory, get_inventory,
    schedule_delivery, update_delivery_status, track_delivery,
    generate_inventory_report;
  repeat case_match; simpl; try done.

Lemma exec_orders_size c s :
  seq_keys ord_id (orders s) →
  size (orders (exec c s))
  = (size (orders s) + (if is_place_order c then 1 else 0))%nat.
Proof.
  intros Hseq. destruct c; simpl; rewrite ?Nat.add_0_r; try (other_ops; fail).
  - rewrite place_order_size by done. lia.
  - by destruct (fulfill_order_frame order_id s) as (_ & _ & _ & _ & -> & _).
Qed.

(** After any calls on a fresh registry there are as many orders as there
    were calls of [place_order]. *)
Lemma orders_placed_size cs :
  size (orders (foldl (flip exec) new_chain cs)) = orders_placed cs.
Proof.
  induction cs as [|c cs IH] using rev_ind; [done|].
  rewrite foldl_app.
  change (foldl (flip exec) (foldl (flip exec) new_chain cs) [c])
    with (exec c (foldl (flip exec) new_chain cs)).
  rewrite exec_orders_size
    by apply reachable_inv, reachable_calls, reachable_new.
  rewrite IH. unfold orders_placed. rewrite filter_app, length_app.
  f_equal. destruct c; by vm_compute.
Qed.

(** When all the calls are calls of [place_order], that is their number. *)
Lemma orders_placed_all cs :
  Forall (λ c, is_place_order c = true) cs → orders_placed cs = length cs.
Proof.
  unfold orders_placed. induction 1 as [|c cs Hc Hcs IH]; [done|].
  rewrite filter_cons_True by done. simpl. by rewrite IH.
Qed.

Example ord_id_12 : ord_id 12 = "ORD-12".
Proof. reflexivity. Qed.

(** C6: start from a fresh registry and make any calls, among them
    [n - 1] calls of [place_order] (all of them may be); then the next
    call of [place_order], the [n]th, returns an order whose id is the text
    [ORD-] followed by [n] in decimal, registered under that id, whatever
    the customers and the items of all these calls are. *)
Theorem place_order_nth_id cs customer order_items today :
  let n := (orders_placed cs + 1)%nat in
  let r := place_order customer order_items today
             (foldl (flip exec) new_chain cs) in
  ∃ a o,
    result r = Returns a
    ∧ order_objs (state_of r) !! a = Some o
    ∧ order_of ("ORD-" +:+ pretty n) (state_of r) = Some o
    ∧ Order.order_id o = "ORD-" +:+ pretty n.
Proof.
  intros n r. unfold r, n. rewrite place_order_unfold.
  rewrite orders_placed_size. simpl.
  set (o0 := Order.init _ customer today).
  pose proof (place_items_fields
                (products (foldl (flip exec) new_chain cs)) order_items o0)
    as (Hid & _).
  eexists _, _. split_and!; [done|by apply list_lookup_middle| |done].
  unfold order_of. simpl.
  change ("ORD-" +:+ pretty (orders_placed cs + 1)%nat)
    with (ord_id (orders_placed cs + 1)).
  rewrite lookup_insert_eq. simpl. by apply list_lookup_middle.
Qed.

(** The third order of a run of the example, placed after stocking the
    registry, two earlier orders and a fulfillment, is [ORD-3]. *)
Lemma place_order_nth_id_witness :
  let cs := [AddProduct apple; AddProduct banana; AddLocation warehouse_x;
             AddInventory "PROD-001" "LOC-002" 100;
             AddInventory "PROD-002" "LOC-002" 150;
             PlaceOrder "Alice" [("PROD-001", 5)] demo_today;
             FulfillOrder "ORD-1";
             PlaceOrder "Bob" [] demo_today] in
  let r := place_order "Carol" [("PROD-002", 7); ("PROD-001", 1)] demo_today
             (foldl (flip exec) new_chain cs) in
  orders_placed cs = 2%nat
  ∧ ∃ a o,
      result r = Returns a
      ∧ order_objs (state_of r) !! a = Some o
      ∧ order_of "ORD-3" (state_of r) = Some o
      ∧ Order.order_id o = "ORD-3"
      ∧ Order.customer o = "Carol"
      ∧ Order.items o = [("PROD-002", 7); ("PROD-001", 1)].
Proof.
  intros cs r. split; [vm_compute; reflexivity|].
  destruct (place_order_nth_id cs "Carol"
              [("PROD-002", 7); ("PROD-001", 1)] demo_today)
    as (a & o & Hr & Ho & Hof & Hid).
  fold r in Hr, Ho, Hof.
  exists a, o. split_and!; [exact Hr | exact Ho | exact Hof | exact Hid | |].
  - vm_compute in Hr. injection Hr as <-. vm_compute in Ho.
    injection Ho as <-. reflexivity.
  - vm_compute in Hr. injection Hr as <-. vm_compute in Ho.
    injection Ho as <-. reflexivity.
Defined.

(** ** Registered products and the lookups of fulfillment *)

Lemma fulfill_items_returns order_id items s :
  (∀ p q, (p, q) ∈ items → is_Some (products s !! p)) →
  ∃ b, result (fulfill_items order_id items s) = Returns b.
Proof.
  revert s. induction items as [|[p q] items IH]; intros s Hreg; simpl.
  { by eexists. }
  destruct (Hreg p q) as [product Hp]; [left|].
  destruct (find_inventory p q (inventory s)) as [[i it]|]; simpl;
    rewrite Hp; simpl; [|by eexists].
  apply IH. intros p' q' Hin. apply (Hreg p' q'). by right.
Qed.

Lemma fulfill_order_returns order_id s :
  store_ok s → items_registered s →
  ∃ b, result (fulfill_order order_id s) = Returns b.
Proof.
  intros [Hso _] Hreg. unfold fulfill_order.
  destruct (orders s !! order_id) as [a|] eqn:Ha; [|by eexists].
  destruct (lookup_lt_is_Some_2 (order_objs s) a) as [order Ho]; [by eauto|].
  rewrite Ho.
  destruct (fulfill_items_returns order_id (Order.items order) s) as [b Hb].
  { intros p q Hin. by eapply Hreg. }
  destruct (fulfill_items _ _ _) as [s' log res]. simpl in *. subst res.
  destruct b; by eexists.
Qed.

(** C10: in every registry built by the operations, the line items of every
    order name registered products, this still holds after any further
    call, and so [fulfill_order] always returns: neither its lookup
    [self.products[product_id]] nor anything else in it raises. *)
Theorem order_items_are_registered s :
  reachable s →
  items_registered s
  ∧ (∀ c, items_registered (exec c s))
  ∧ ∀ order_id, ∃ b, result (fulfill_order order_id s) = Returns b.
Proof.
  intros Hs. pose proof (reachable_inv s Hs) as Hinv. split_and!.
  - apply Hinv.
  - intros c. apply reachable_inv. by constructor.
  - intros order_id. apply fulfill_order_returns; apply Hinv.
Qed.

Lemma order_items_are_registered_witness :
  items_registered ordered_chain
  ∧ ∃ b, result (fulfill_order "ORD-1" ordered_chain) = Returns b.
Proof.
  destruct (order_items_are_registered ordered_chain ordered_chain_reachable)
    as (Hreg & _ & Hret).
  split; [exact Hreg | exact (Hret "ORD-1")].
Defined.

(** ** Delivery is gated by fulfillment *)

Lemma order_of_Some order_id s o :
  order_of order_id s = Some o ↔
  ∃ a, orders s !! order_id = Some a ∧ order_objs s !! a = Some o.
Proof.
  unfold order_of. destruct (orders s !! order_id) as [a|]; simpl.
  - split; [by exists a | by intros (? & [= <-] & ?)].
  - split; [done | by intros (? & ? & _)].
Qed.

(** A successful fulfillment marks the order object and leaves the
    dictionaries of orders and deliveries alone. *)
Lemma fulfill_order_success order_id s a o :
  orders s !! order_id = Some a → order_objs s !! a = Some o →
  result (fulfill_order order_id s) = Returns true →
  let s' := state_of (fulfill_order order_id s) in
  order_objs s' !! a = Some (Order.update_status "Fulfilled" o)
  ∧ orders s' = orders s
  ∧ deliveries s' = deliveries s.
Proof.
  intros Ha Ho. unfold fulfill_order. rewrite Ha, Ho.
  pose proof (fulfill_items_frame order_id (Order.items o) s) as Hf.
  destruct (fulfill_items _ _ _) as [s' log [[]|e]]; simpl in *; try done.
  destruct Hf as (Hobjs & _ & _ & Hord & Hdel & _). intros _.
  split_and!; [|done..]. by rewrite list_lookup_alter_eq, Hobjs, Ho.
Qed.

(** C3: for a registered order, [schedule_delivery] returns [None], printing
    the not-yet-fulfilled line and changing nothing, whenever the status of
    the order is not ["Fulfilled"]; and right after a [fulfill_order] that
    returned [True] it returns a new delivery that refers to the very order
    object registered under the id, and registers it under the next delivery
    id, which in a registry built by the operations was not in use. *)
Theorem schedule_delivery_gate s order_id a o delivery_date :
  orders s !! order_id = Some a → order_objs s !! a = Some o →
  (Order.status o ≠ "Fulfilled" →
     schedule_delivery order_id delivery_date s
     = Run s [NotYetFulfilled order_id] (Returns None))
  ∧ (result (fulfill_order order_id s) = Returns true →
       let s1 := state_of (fulfill_order order_id s) in
       let id := del_id (size (deliveries s1) + 1) in
       let d := Delivery.init id a delivery_date in
       schedule_delivery order_id delivery_date s1
       = Run (set_deliveries <[id := d]> s1)
           [DeliveryScheduled id order_id] (Returns (Some d))
       ∧ orders s1 !! order_id = Some (Delivery.order d)
       ∧ (Order.status <$> order_objs s1 !! Delivery.order d) = Some "Fulfilled"
       ∧ deliveries (set_deliveries <[id := d]> s1) !! id = Some d
       ∧ (reachable s → deliveries s1 !! id = None)).
Proof.
  intros Ha Ho. split.
  - intros Hst. unfold schedule_delivery. rewrite Ha, Ho.
    by rewrite decide_True.
  - intros Hok s1 id d.
    destruct (fulfill_order_success order_id s a o Ha Ho Hok)
      as (Ho1 & Hord & Hdel).
    fold s1 in Ho1, Hord, Hdel. split_and!.
    + unfold schedule_delivery. by rewrite Hord, Ha, Ho1.
    + by rewrite Hord.
    + simpl. by rewrite Ho1.
    + simpl. by rewrite lookup_insert_eq.
    + intros Hs. unfold id. rewrite Hdel.
      apply seq_keys_fresh; [apply del_id_inj|]. by apply reachable_inv.
Qed.

Lemma schedule_delivery_gate_witness :
  schedule_delivery "ORD-1" (Some (mkDate 2025 4 18)) ordered_chain
  = Run ordered_chain [NotYetFulfilled "ORD-1"] (Returns None)
  ∧ (Delivery.delivery_id <$>
       match result (schedule_delivery "ORD-1" (Some (mkDate 2025 4 18))
                       (state_of (fulfill_order "ORD-1" ordered_chain))) with
       | Returns d => d
       | Raises _ => None
       end) = Some "DEL-1".
Proof.
  assert (orders ordered_chain !! "ORD-1" = Some 0%nat) as Ha
    by (vm_compute; reflexivity).
  assert (order_objs ordered_chain !! 0%nat
          = Some (Order.mk "ORD-1" "Alice" demo_today
                    [("PROD-001", 5); ("PROD-003", 2)] "Pending")) as Ho
    by (vm_compute; reflexivity).
  destruct (schedule_delivery_gate ordered_chain "ORD-1" 0 _
              (Some (mkDate 2025 4 18)) Ha Ho) as [Hgate Hthen].
  split.
  - apply Hgate. simpl. discriminate.
  - destruct Hthen as (Hrun & _); [vm_compute; reflexivity|].
    rewrite Hrun. vm_compute. reflexivity.
Defined.

(** ** What fulfillment ships *)

Section Shipping.
Implicit Types (inv : list ((string * string) * InventoryItem.t)).

Lemma first_fit_find p q inv i :
  first_fit p q inv i ↔ ∃ it, find_inventory p q inv = Some (i, it).
Proof.
  split.
  - intros [Hi Hfirst]. by apply find_inventory_first.
  - intros [it ([l Hl] & Hq & Hfirst)%find_inventory_Some].
    split; [by exists l, it | done].
Qed.

Lemma sufficient_find p q inv :
  (∃ i, sufficient_at p q inv i) ↔ is_Some (find_inventory p q inv).
Proof.
  rewrite <-not_eq_None_Some, find_inventory_None. split.
  - intros [i Hi] Hall. by apply (Hall i).
  - intros Hnot. destruct (find_inventory p q inv) as [[i it]|] eqn:Hfind.
    + exists i. apply (first_fit_find p q inv i). by exists it.
    + destruct Hnot. by apply find_inventory_None.
Qed.

(** Among sufficient entries there is a first one. *)
Lemma sufficient_first_fit p q inv :
  (∃ j, sufficient_at p q inv j) → ∃ i, first_fit p q inv i.
Proof.
  intros [[i it] Hfind]%sufficient_find. exists i.
  apply first_fit_find. by exists it.
Qed.

Lemma ship_lookup s i q k :
  inventory (ship i q s) !! k
  = (if decide (i = k)
     then prod_map id (λ it,
            InventoryItem.set_quantity (InventoryItem.quantity it - q) it)
     else id) <$> inventory s !! k.
Proof.
  unfold ship. simpl. rewrite list_lookup_alter.
  case_decide; [by subst|]. by destruct (inventory s !! k).
Qed.

(** Line items for other products leave the entries of a product, and the
    search among them, as they were. *)
Lemma fulfill_items_other_product order_id items s p :
  p ∉ items.*1 →
  let s' := state_of (fulfill_items order_id items s) in
  (∀ q, find_inventory p q (inventory s') = find_inventory p q (inventory s))
  ∧ ∀ k l it, inventory s !! k = Some ((p, l), it) →
              inventory s' !! k = Some ((p, l), it).
Proof.
  revert s. induction items as [|[p0 q0] items IH]; intros s Hp; simpl; [done|].
  apply not_elem_of_cons in Hp as [Hne Hp]. simpl in Hne.
  destruct (find_inventory p0 q0 (inventory s)) as [[i it0]|] eqn:Hfind;
    [|by destruct (products s !! p0)].
  apply find_inventory_Some in Hfind as ([l0 Hi] & _ & _).
  assert ((∀ q, find_inventory p q (inventory (ship i q0 s))
                = find_inventory p q (inventory s))
          ∧ ∀ k l it, inventory s !! k = Some ((p, l), it) →
                      inventory (ship i q0 s) !! k = Some ((p, l), it))
    as [Hsame Hkeep].
  { split.
    - intros q. by eapply find_inventory_alter_other.
    - intros k l it Hk. rewrite ship_lookup, Hk.
      rewrite decide_False; [done|]. intros ->. congruence. }
  destruct (products s !! p0); simpl; [|done].
  destruct (IH (ship i q0 s) Hp) as [Hsame' Hkeep']. split.
  - intros q. by rewrite Hsame', Hsame.
  - intros k l it Hk. by apply Hkeep', Hkeep.
Qed.

(** When the loop runs to its end, the entries of the product of each line
    item are as before, except the first sufficient one, which holds the
    requested quantity less. *)
Lemma fulfill_items_ships order_id items s p q i :
  dict_ok items → (p, q) ∈ items →
  first_fit p q (inventory s) i →
  result (fulfill_items order_id items s) = Returns true →
  ∀ k l it,
    inventory s !! k = Some ((p, l), it) →
    inventory (state_of (fulfill_items order_id items s)) !! k
    = Some ((p, l),
            if decide (i = k)
            then InventoryItem.set_quantity (InventoryItem.quantity it - q) it
            else it).
Proof.
  revert s. induction items as [|[p0 q0] items IH]; intros s Hok Hin Hfit.
  { by apply elem_of_nil in Hin. }
  apply NoDup_cons in Hok as [Hp0 Hok]. simpl.
  destruct (find_inventory p0 q0 (inventory s)) as [[i0 it0]|] eqn:Hfind;
    [|by destruct (products s !! p0)].
  destruct (products s !! p0); simpl; [|done].
  intros Hres k l it Hk.
  apply elem_of_cons in Hin as [[= -> ->]|Hin].
  - apply first_fit_find in Hfit as [it' Hfit].
    rewrite Hfind in Hfit. injection Hfit as -> ->.
    destruct (fulfill_items_other_product order_id items (ship i q0 s) p0 Hp0)
      as [_ Hkeep].
    apply Hkeep. rewrite ship_lookup, Hk. by case_decide.
  - assert (p0 ≠ p) as Hne.
    { intros ->. apply Hp0. apply list_elem_of_fmap. by exists (p, q). }
    apply find_inventory_Some in Hfind as ([l0 Hi0] & _ & _).
    apply (IH (ship i0 q0 s)); try done.
    + apply first_fit_find. apply first_fit_find in Hfit as [it' Hfit].
      exists it'. unfold ship. simpl.
      by erewrite find_inventory_alter_other.
    + rewrite ship_lookup, Hk. rewrite decide_False; [done|].
      intros ->. congruence.
Qed.

(** The loop runs to its end when every line item names a registered
    product that some entry holds enough of. *)
Lemma fulfill_items_succeeds order_id items s :
  dict_ok items →
  (∀ p q, (p, q) ∈ items → is_Some (products s !! p)) →
  (∀ p q, (p, q) ∈ items → is_Some (find_inventory p q (inventory s))) →
  result (fulfill_items order_id items s) = Returns true.
Proof.
  revert s. induction items as [|[p0 q0] items IH]; intros s Hok Hreg Hsuff;
    simpl; [done|].
  apply NoDup_cons in Hok as [Hp0 Hok].
  destruct (Hsuff p0 q0) as [[i0 it0] Hfind]; [left|]. rewrite Hfind.
  destruct (Hreg p0 q0) as [product Hp]; [left|]. simpl. rewrite Hp. simpl.
  apply find_inventory_Some in Hfind as ([l0 Hi0] & _ & _).
  apply IH; [done| |].
  - intros p q Hin. apply (Hreg p q). by right.
  - intros p q Hin. unfold ship. simpl.
    erewrite find_inventory_alter_other; [|done|].
    + apply Hsuff. by right.
    + intros ->. apply Hp0. apply list_elem_of_fmap. by exists (p, q).
Qed.

End Shipping.

(** ** No rollback on failure *)

Lemma quantity_at_ship s i q k :
  quantity_at k (ship i q s)
  = (if decide (i = k) then λ x, x - q else id) <$> quantity_at k s.
Proof.
  unfold quantity_at. rewrite ship_lookup.
  destruct (inventory s !! k) as [[key it]|]; [|done]. by case_decide.
Qed.

(** C1: in a registry built by the operations, take a pending order of two
    line items, the first served by the first sufficient entry [i] of the
    inventory and the second by none.  Then [fulfill_order] returns [False],
    the order object is untouched and so still ["Pending"], and the registry
    is left as it was but for entry [i], which holds [q1] less: the
    decrement made for the first line item is not rolled back. *)
Theorem fulfill_order_partial_failure s order_id o p1 q1 p2 q2 i :
  reachable s →
  order_of order_id s = Some o →
  Order.items o = [(p1, q1); (p2, q2)] →
  Order.status o = "Pending" →
  first_fit p1 q1 (inventory s) i →
  (∀ j, ¬ sufficient_at p2 q2 (inventory s) j) →
  let r := fulfill_order order_id s in
  result r = Returns false
  ∧ order_of order_id (state_of r) = Some o
  ∧ (Order.status <$> order_of order_id (state_of r)) = Some "Pending"
  ∧ state_of r = ship i q1 s
  ∧ quantity_at i (state_of r) = (λ x, x - q1) <$> quantity_at i s
  ∧ is_Some (quantity_at i s)
  ∧ (∀ k, k ≠ i → quantity_at k (state_of r) = quantity_at k s)
  ∧ ∃ n1 l1 n2,
      printed r = [Shipped q1 n1 l1 order_id; InsufficientStock n2 order_id].
Proof.
  intros Hs Hof Hitems Hst Hfit Hnone r.
  pose proof (reachable_inv s Hs) as [_ Hreg Hok _ _ _].
  pose proof Hof as (a & Ha & Ho)%order_of_Some.
  assert (p1 ≠ p2) as Hne.
  { specialize (Hok a o Ho). unfold dict_ok in Hok. rewrite Hitems in Hok.
    apply NoDup_cons in Hok as [Hp1 _]. intros ->. apply Hp1. left. }
  destruct (Hreg a o p1 q1 Ho) as [product1 Hp1]; [rewrite Hitems; left|].
  destruct (Hreg a o p2 q2 Ho) as [product2 Hp2];
    [rewrite Hitems; right; left|].
  pose proof Hfit as [it Hfind]%first_fit_find.
  pose proof Hfind as ([l Hi] & _ & _)%find_inventory_Some.
  assert (find_inventory p2 q2 (inventory (ship i q1 s)) = None) as Hfind2.
  { unfold ship. simpl. erewrite find_inventory_alter_other; [|done..].
    by apply find_inventory_None. }
  assert (r = Run (ship i q1 s)
                [Shipped q1 (Product.name product1)
                   (Location.name (InventoryItem.location it)) order_id;
                 InsufficientStock (Product.name product2) order_id]
                (Returns false)) as ->.
  { unfold r, fulfill_order. rewrite Ha, Ho, Hitems. simpl.
    rewrite Hfind. simpl. rewrite Hp1. simpl.
    unfold ship in Hfind2. simpl in Hfind2. rewrite Hfind2.
    by rewrite Hp2. }
  cbn [state_of result printed].
  change (order_of order_id (ship i q1 s)) with (order_of order_id s).
  split_and!; try done.
  - rewrite Hof. simpl. by rewrite Hst.
  - rewrite quantity_at_ship. by rewrite decide_True.
  - unfold quantity_at. by rewrite Hi.
  - intros k Hk. rewrite quantity_at_ship. rewrite decide_False by done.
    by destruct (quantity_at k s).
  - by eexists _, _, _.
Qed.

Lemma short_chain_reachable : reachable short_chain.
Proof. constructor. apply stocked_chain_reachable. Qed.

Lemma fulfill_order_partial_failure_witness :
  let r := fulfill_order "ORD-1" short_chain in
  result r = Returns false
  ∧ (Order.status <$> order_of "ORD-1" (state_of r)) = Some "Pending"
  ∧ quantity_at 0 short_chain = Some 100
  ∧ quantity_at 0 (state_of r) = Some 95.
Proof.
  assert (order_of "ORD-1" short_chain
          = Some (Order.mk "ORD-1" "Carol" demo_today
                    [("PROD-001", 5); ("PROD-002", 500)] "Pending")) as Hof
    by (vm_compute; reflexivity).
  assert (first_fit "PROD-001" 5 (inventory short_chain) 0) as Hfit.
  { apply first_fit_find. eexists. vm_compute. reflexivity. }
  assert (∀ j, ¬ sufficient_at "PROD-002" 500 (inventory short_chain) j)
    as Hnone.
  { apply find_inventory_None. vm_compute. reflexivity. }
  assert (quantity_at 0 short_chain = Some 100) as Hq
    by (vm_compute; reflexivity).
  destruct (fulfill_order_partial_failure short_chain "ORD-1" _
              "PROD-001" 5 "PROD-002" 500 0
              short_chain_reachable Hof eq_refl eq_refl Hfit Hnone)
    as (Hres & _ & Hst & _ & Hdec & _).
  split_and!; [exact Hres | exact Hst | exact Hq |].
  rewrite Hdec, Hq. reflexivity.
Defined.

(** ** First fit *)

Lemma fulfill_order_ok s order_id o :
  reachable s → order_of order_id s = Some o →
  satisfiable (Order.items o) (inventory s) →
  let r := fulfill_order order_id s in
  result r = Returns true
  ∧ result (fulfill_items order_id (Order.items o) s) = Returns true
  ∧ inventory (state_of r)
    = inventory (state_of (fulfill_items order_id (Order.items o) s))
  ∧ order_of order_id (state_of r)
    = Some (Order.update_status "Fulfilled" o).
Proof.
  intros Hs (a & Ha & Ho)%order_of_Some Hsat r.
  pose proof (reachable_inv s Hs) as [_ Hreg Hok _ _ _].
  assert (result (fulfill_items order_id (Order.items o) s) = Returns true)
    as Hres.
  { apply fulfill_items_succeeds.
    - by eapply Hok.
    - intros p q Hin. by eapply Hreg.
    - intros p q Hin. apply sufficient_find. by eapply Hsat. }
  pose proof (fulfill_items_frame order_id (Order.items o) s)
    as (Hobjs & _ & _ & Hord & _).
  unfold r, fulfill_order, order_of. rewrite Ha, Ho, Hres. simpl.
  split_and!; try done.
  rewrite Hord, Ha. simpl. by rewrite list_lookup_alter_eq, Hobjs, Ho.
Qed.

Lemma fulfill_order_ships s order_id o p q i :
  reachable s → order_of order_id s = Some o →
  satisfiable (Order.items o) (inventory s) →
  (p, q) ∈ Order.items o →
  first_fit p q (inventory s) i →
  ∀ k l it,
    inventory s !! k = Some ((p, l), it) →
    inventory (state_of (fulfill_order order_id s)) !! k
    = Some ((p, l),
            if decide (i = k)
            then InventoryItem.set_quantity (InventoryItem.quantity it - q) it
            else it).
Proof.
  intros Hs Hof Hsat Hin Hfit k l it Hk.
  destruct (fulfill_order_ok s order_id o Hs Hof Hsat) as (_ & Hres & -> & _).
  apply order_of_Some in Hof as (a & Ha & Ho).
  apply fulfill_items_ships; try done.
  by eapply (inv_items_ok s (reachable_inv s Hs)).
Qed.

(** C2: in a registry built by the operations, let an order that can be
    fulfilled ask for [q] of product [p], and let two entries [i < j] of the
    inventory both be for [p] and hold at least [q], with [i] the first
    sufficient entry in insertion order.  Then [fulfill_order] succeeds,
    entry [i] holds [q] less, entry [j] holds what it held, and so does
    every other entry for [p]. *)
Theorem fulfill_order_first_fit s order_id o p q i j :
  reachable s →
  order_of order_id s = Some o →
  satisfiable (Order.items o) (inventory s) →
  (p, q) ∈ Order.items o →
  first_fit p q (inventory s) i →
  (i < j)%nat →
  sufficient_at p q (inventory s) j →
  let r := fulfill_order order_id s in
  result r = Returns true
  ∧ is_Some (quantity_at i s)
  ∧ quantity_at i (state_of r) = (λ x, x - q) <$> quantity_at i s
  ∧ quantity_at j (state_of r) = quantity_at j s
  ∧ ∀ k l it, k ≠ i →
      inventory s !! k = Some ((p, l), it) →
      inventory (state_of r) !! k = Some ((p, l), it).
Proof.
  intros Hs Hof Hsat Hin Hfit Hij (lj & itj & Hj & _) r.
  pose proof (fulfill_order_ships s order_id o p q i Hs Hof Hsat Hin Hfit)
    as Hship.
  destruct Hfit as [(li & iti & Hi & _) _].
  split_and!.
  - by apply (fulfill_order_ok s order_id o).
  - unfold quantity_at. by rewrite Hi.
  - unfold quantity_at, r. rewrite (Hship i li iti Hi), Hi. simpl.
    by rewrite decide_True.
  - unfold quantity_at, r. rewrite (Hship j lj itj Hj), Hj. simpl.
    rewrite decide_False; [done|lia].
  - intros k l it Hk Hlk. unfold r. rewrite (Hship k l it Hlk).
    by rewrite decide_False.
Qed.

Lemma fulfill_order_first_fit_witness :
  let r := fulfill_order "ORD-1" ordered_chain in
  result r = Returns true
  ∧ stock "PROD-001" "LOC-002" ordered_chain = Some 100
  ∧ stock "PROD-001" "LOC-003" ordered_chain = Some 20
  ∧ quantity_at 0 (state_of r) = Some 95
  ∧ quantity_at 3 (state_of r) = Some 20.
Proof.
  assert (order_of "ORD-1" ordered_chain
          = Some (Order.mk "ORD-1" "Alice" demo_today
                    [("PROD-001", 5); ("PROD-003", 2)] "Pending")) as Hof
    by (vm_compute; reflexivity).
  assert (satisfiable [("PROD-001", 5); ("PROD-003", 2)]
            (inventory ordered_chain)) as Hsat.
  { intros p q [[= -> ->]|[[= -> ->]|[]%elem_of_nil]%elem_of_cons]%elem_of_cons;
      apply sufficient_find; vm_compute; eexists; reflexivity. }
  assert (first_fit "PROD-001" 5 (inventory ordered_chain) 0) as Hfit.
  { apply first_fit_find. eexists. vm_compute. reflexivity. }
  assert (sufficient_at "PROD-001" 5 (inventory ordered_chain) 3) as Hj.
  { eexists _, _. split; [vm_compute; reflexivity|]. simpl. lia. }
  destruct (fulfill_order_first_fit ordered_chain "ORD-1" _ "PROD-001" 5 0 3
              ordered_chain_reachable Hof Hsat ltac:(left) Hfit
              ltac:(lia) Hj)
    as (Hres & _ & Hi & Hjq & _).
  split_and!; [exact Hres | vm_compute; reflexivity | vm_compute; reflexivity
              | rewrite Hi; vm_compute; reflexivity
              | rewrite Hjq; vm_compute; reflexivity].
Defined.

(** ** Fulfilling twice *)

(** C9: [fulfill_order] never looks at the status of the order.  In a
    registry built by the operations, an order that is already
    ["Fulfilled"] and whose line items can each be served from a single
    entry is fulfilled again: the call returns [True], the order stays
    ["Fulfilled"], and for each line item the first sufficient entry holds
    the requested quantity less than before the call.  So the operation is
    not idempotent: in the example of the source file a second fulfillment
    of the order succeeds and leaves another inventory than the first. *)
Theorem fulfill_order_ignores_status :
  (∀ s order_id o,
     reachable s →
     order_of order_id s = Some o →
     Order.status o = "Fulfilled" →
     satisfiable (Order.items o) (inventory s) →
     let r := fulfill_order order_id s in
     result r = Returns true
     ∧ (Order.status <$> order_of order_id (state_of r)) = Some "Fulfilled"
     ∧ ∀ p q i, (p, q) ∈ Order.items o →
         first_fit p q (inventory s) i →
         is_Some (quantity_at i s)
         ∧ quantity_at i (state_of r) = (λ x, x - q) <$> quantity_at i s)
  ∧ ∃ s order_id,
      reachable s
      ∧ let s1 := state_of (fulfill_order order_id s) in
        let s2 := state_of (fulfill_order order_id s1) in
        result (fulfill_order order_id s) = Returns true
        ∧ (Order.status <$> order_of order_id s1) = Some "Fulfilled"
        ∧ result (fulfill_order order_id s1) = Returns true
        ∧ inventory s2 ≠ inventory s1.
Proof.
  split.
  - intros s order_id o Hs Hof Hst Hsat r.
    destruct (fulfill_order_ok s order_id o Hs Hof Hsat) as (Hres & _ & _ & Hof').
    split_and!; [done|unfold r; by rewrite Hof'|].
    intros p q i Hin Hfit.
    pose proof (fulfill_order_ships s order_id o p q i Hs Hof Hsat Hin Hfit)
      as Hship.
    destruct Hfit as [(l & it & Hi & _) _].
    unfold quantity_at, r. rewrite (Hship i l it Hi), Hi. simpl.
    split; [by eexists|]. by rewrite decide_True.
  - exists ordered_chain, "ORD-1". split; [apply ordered_chain_reachable|].
    split_and!; try (vm_compute; reflexivity).
    intros Heq.
    assert (stock "PROD-001" "LOC-002"
              (state_of (fulfill_order "ORD-1"
                 (state_of (fulfill_order "ORD-1" ordered_chain))))
            = stock "PROD-001" "LOC-002"
                (state_of (fulfill_order "ORD-1" ordered_chain))) as Hstock
      by (unfold stock; by rewrite Heq).
    vm_compute in Hstock. discriminate.
Qed.

Lemma reachable_fulfill_order order_id s :
  reachable s → reachable (state_of (fulfill_order order_id s)).
Proof. apply (reachable_exec (FulfillOrder order_id)). Qed.

Lemma fulfill_order_ignores_status_witness :
  let s1 := state_of (fulfill_order "ORD-1" ordered_chain) in
  let r := fulfill_order "ORD-1" s1 in
  (Order.status <$> order_of "ORD-1" s1) = Some "Fulfilled"
  ∧ result r = Returns true
  ∧ quantity_at 0 s1 = Some 95
  ∧ quantity_at 0 (state_of r) = Some 90.
Proof.
  set (s1 := state_of (fulfill_order "ORD-1" ordered_chain)).
  assert (reachable s1) as Hs
    by exact (reachable_fulfill_order "ORD-1" _ ordered_chain_reachable).
  assert (order_of "ORD-1" s1
          = Some (Order.mk "ORD-1" "Alice" demo_today
                    [("PROD-001", 5); ("PROD-003", 2)] "Fulfilled")) as Hof
    by (vm_compute; reflexivity).
  assert (satisfiable [("PROD-001", 5); ("PROD-003", 2)] (inventory s1))
    as Hsat.
  { intros p q [[= -> ->]|[[= -> ->]|[]%elem_of_nil]%elem_of_cons]%elem_of_cons;
      apply sufficient_find; vm_compute; eexists; reflexivity. }
  assert (first_fit "PROD-001" 5 (inventory s1) 0) as Hfit.
  { apply first_fit_find. eexists. vm_compute. reflexivity. }
  assert (quantity_at 0 s1 = Some 95) as Hq by (vm_compute; reflexivity).
  destruct (proj1 fulfill_order_ignores_status s1 "ORD-1" _
              Hs Hof eq_refl Hsat) as (Hres & _ & Hlines).
  destruct (Hlines "PROD-001" 5 0%nat ltac:(left) Hfit) as [_ Hdec].
  split_and!; [by rewrite Hof | exact Hres | exact Hq |].
  rewrite Hdec, Hq. reflexivity.
Defined.

(** * Further properties of the registry *)

(** ** Registration is permanent *)

Lemma exec_products c s k p :
  products s !! k = Some p → products (exec c s) !! k = Some p.
Proof.
  intros Hk. destruct c; simpl; try done.
  - unfold add_product.
    destruct (products s !! Product.product_id product) eqn:Hp; [done|].
    simpl. rewrite lookup_insert_ne; [done|]. congruence.
  - unfold add_location. by destruct (locations s !! _).
  - by destruct (add_inventory_registered s product_id location_id quantity)
      as [-> _].
  - by rewrite place_order_unfold.
  - by destruct (fulfill_order_frame order_id s) as (_ & _ & -> & _).
  - unfold schedule_delivery. destruct (orders s !! order_id); [|done].
    destruct (order_objs s !! _); [|done]. by case_decide.
  - unfold update_delivery_status. by destruct (deliveries s !! _).
  - unfold track_delivery. by destruct (deliveries s !! _).
Qed.

Lemma exec_locations c s k l :
  locations s !! k = Some l → locations (exec c s) !! k = Some l.
Proof.
  intros Hk. destruct c; simpl; try done.
  - unfold add_product. by destruct (products s !! _).
  - unfold add_location.
    destruct (locations s !! Location.location_id location) eqn:Hp; [done|].
    simpl. rewrite lookup_insert_ne; [done|]. congruence.
  - by destruct (add_inventory_registered s product_id location_id quantity)
      as [_ ->].
  - by rewrite place_order_unfold.
  - by destruct (fulfill_order_frame order_id s) as (_ & _ & _ & -> & _).
  - unfold schedule_delivery. destruct (orders s !! order_id); [|done].
    destruct (order_objs s !! _); [|done]. by case_decide.
  - unfold update_delivery_status. by destruct (deliveries s !! _).
  - unfold track_delivery. by destruct (deliveries s !! _).
Qed.

(** X1: no sequence of calls removes or replaces a registered product or
    location: what an id is registered to, it stays registered to. *)
Theorem registered_forever cs s :
  (∀ k p, products s !! k = Some p →
          products (foldl (flip exec) s cs) !! k = Some p)
  ∧ (∀ k l, locations s !! k = Some l →
            locations (foldl (flip exec) s cs) !! k = Some l).
Proof.
  revert s. induction cs as [|c cs IH]; intros s; simpl; [done|].
  destruct (IH (exec c s)) as [IHp IHl]. split.
  - intros k p Hk. by apply IHp, exec_products.
  - intros k l Hk. by apply IHl, exec_locations.
Qed.

(** ** Adding and reading inventory *)

Lemma dict_get_elem_ok {K V} `{EqDecision K} (d : list (K * V)) k v :
  dict_ok d → (k, v) ∈ d → dict_get k d = Some v.
Proof.
  unfold dict_ok. induction d as [|[k0 v0] d IH]; simpl.
  { by intros _ ?%elem_of_nil. }
  intros [Hk0 Hd]%NoDup_cons [[= -> ->]|Hin]%elem_of_cons.
  - by rewrite decide_True.
  - rewrite decide_False; [by apply IH|]. intros ->. apply Hk0.
    apply list_elem_of_fmap. by exists (k, v).
Qed.

(** X2: [add_inventory] touches nothing but the item of its own pair: with
    an unregistered product or location it prints the invalid-id line and
    changes nothing, and in every case the items of all other pairs, and
    all the other dictionaries, are as before. *)
Theorem add_inventory_only_its_pair s p l q :
  (products s !! p = None ∨ locations s !! l = None →
     add_inventory p l q s = Run s [InvalidIds] (Returns ()))
  ∧ (∀ p' l', (p', l') ≠ (p, l) →
       get_inventory p' l' (state_of (add_inventory p l q s))
       = Run (state_of (add_inventory p l q s)) []
           (result (get_inventory p' l' s)))
  ∧ set_inventory (λ _, inventory s) (state_of (add_inventory p l q s)) = s.
Proof.
  unfold add_inventory, get_inventory. split_and!.
  - intros [Hp|Hl]; [by rewrite Hp|].
    rewrite Hl. by destruct (products s !! p).
  - intros p' l' Hne.
    destruct (products s !! p), (locations s !! l); try done.
    destruct (dict_get (p, l) (inventory s)); simpl;
      by rewrite dict_get_set, decide_False.
  - destruct s as [objs ps ls inv os ds]; simpl.
    destruct (ps !! p), (ls !! l); try done. by destruct (dict_get _ _).
Qed.

(** ** What a fulfillment does to the stores *)

(** Shipping changes no key, product or location of an inventory item. *)
Lemma fulfill_items_same_refs order_id items s k item' :
  (k, item') ∈ inventory (state_of (fulfill_items order_id items s)) →
  ∃ item, (k, item) ∈ inventory s
          ∧ InventoryItem.product item' = InventoryItem.product item
          ∧ InventoryItem.location item' = InventoryItem.location item.
Proof.
  revert s item'. induction items as [|[p q] items IH]; intros s item'; simpl.
  { intros Hin. by exists item'. }
  assert (∀ i it', (k, it') ∈ inventory (ship i q s) →
            ∃ item, (k, item) ∈ inventory s
                    ∧ InventoryItem.product it' = InventoryItem.product item
                    ∧ InventoryItem.location it' = InventoryItem.location item)
    as Hship.
  { intros i it' [j Hj]%list_elem_of_lookup. rewrite ship_lookup in Hj.
    destruct (inventory s !! j) as [[k0 it0]|] eqn:Hj0; [|done].
    assert ((k0, it0) ∈ inventory s) as Hin0
      by (apply list_elem_of_lookup; eauto).
    case_decide; simplify_eq/=; by eexists. }
  destruct (find_inventory p q (inventory s)) as [[i it]|];
    [|destruct (products s !! p); intros Hin; by exists item'].
  destruct (products s !! p); simpl; [|apply Hship].
  intros (it1 & Hin1 & Hp1 & Hl1)%IH.
  destruct (Hship _ _ Hin1) as (it0 & Hin0 & Hp0 & Hl0).
  exists it0. split_and!; congruence.
Qed.

Lemma fulfill_order_same_refs order_id s k item' :
  (k, item') ∈ inventory (state_of (fulfill_order order_id s)) →
  ∃ item, (k, item) ∈ inventory s
          ∧ InventoryItem.product item' = InventoryItem.product item
          ∧ InventoryItem.location item' = InventoryItem.location item.
Proof.
  unfold fulfill_order.
  destruct (orders s !! order_id) as [a|]; [|by exists item'].
  destruct (order_objs s !! a) as [order|]; [|by exists item'].
  pose proof (fulfill_items_same_refs order_id (Order.items order) s k item')
    as Hrefs.
  by destruct (fulfill_items _ _ _) as [s' log [[]|e]].
Qed.

(** A fulfillment leaves the order objects alone or, when it succeeds, marks
    the one registered under the id. *)
Lemma fulfill_order_objs order_id s :
  let r := fulfill_order order_id s in
  (result r ≠ Returns true ∧ order_objs (state_of r) = order_objs s)
  ∨ ∃ a, orders s !! order_id = Some a
         ∧ result r = Returns true
         ∧ order_objs (state_of r)
           = alter (Order.update_status "Fulfilled") a (order_objs s).
Proof.
  unfold fulfill_order.
  destruct (orders s !! order_id) as [a|] eqn:Ha; [|by left].
  destruct (order_objs s !! a) as [order|]; [|by left].
  pose proof (fulfill_items_frame order_id (Order.items order) s)
    as (Hobjs & _).
  destruct (fulfill_items _ _ _) as [s' log [[]|e]]; simpl in *.
  - right. exists a. by rewrite Hobjs.
  - by left.
  - by left.
Qed.

(** What a fulfillment makes of the order object at an address. *)
Lemma fulfill_order_obj_at order_id s a :
  let s' := state_of (fulfill_order order_id s) in
  order_objs s' !! a = order_objs s !! a
  ∨ (orders s !! order_id = Some a
     ∧ result (fulfill_order order_id s) = Returns true
     ∧ order_objs s' !! a
       = Order.update_status "Fulfilled" <$> order_objs s !! a).
Proof.
  intros s'. unfold s'.
  destruct (fulfill_order_objs order_id s) as [[_ ->]|(a0 & Ha0 & Hres & ->)];
    [by left|].
  destruct (decide (a0 = a)) as [->|Hne].
  - right. by rewrite list_lookup_alter_eq.
  - left. by rewrite list_lookup_alter_ne.
Qed.

(** ** Invariants of identity and reference *)

Lemma references_ok_exec c s : references_ok s → references_ok (exec c s).
Proof.
  intros (Hps & Hls & Hinv). destruct c; simpl; try done.
  - unfold add_product.
    destruct (products s !! Product.product_id product) eqn:Hp; [done|].
    split_and!; simpl; [|done|].
    + intros k p [[<- <-]|[_ Hk]]%lookup_insert_Some; eauto.
    + intros k item Hin. destruct (Hinv k item Hin) as [Hkp Hkl].
      split; [|done]. rewrite lookup_insert_ne; [done|]. congruence.
  - unfold add_location.
    destruct (locations s !! Location.location_id location) eqn:Hl; [done|].
    split_and!; simpl; [done| |].
    + intros k l [[<- <-]|[_ Hk]]%lookup_insert_Some; eauto.
    + intros k item Hin. destruct (Hinv k item Hin) as [Hkp Hkl].
      split; [done|]. rewrite lookup_insert_ne; [done|]. congruence.
  - unfold add_inventory.
    destruct (products s !! product_id) as [product|] eqn:Hp; [|done].
    destruct (locations s !! location_id) as [location|] eqn:Hl; [|done].
    destruct (dict_get _ (inventory s)) as [item0|] eqn:Hget; simpl;
      (split_and!; [done..|]); simpl;
      intros k item [Hin|[-> ->]]%dict_set_elem; eauto.
    apply dict_get_Some_elem in Hget. by apply (Hinv _ _ Hget).
  - by rewrite place_order_unfold.
  - destruct (fulfill_order_frame order_id s)
      as (_ & _ & Hp & Hl & _).
    split_and!; rewrite ?Hp, ?Hl; [done..|].
    intros k item' (item & Hin & -> & ->)%fulfill_order_same_refs.
    by apply Hinv.
  - unfold schedule_delivery. destruct (orders s !! order_id); [|done].
    destruct (order_objs s !! _); [|done]. by case_decide.
  - unfold update_delivery_status. by destruct (deliveries s !! _).
  - unfold track_delivery. by destruct (deliveries s !! _).
Qed.

Lemma orders_ok_exec c s :
  seq_keys ord_id (orders s) → orders_ok s → orders_ok (exec c s).
Proof.
  intros Hseq (Hsize & Hids & Hall).
  destruct c; simpl; try (split_and!; other_ops; fail).
  - rewrite place_order_unfold. split_and!; simpl.
    + rewrite map_size_insert_None, length_app by
        (apply seq_keys_fresh; [apply ord_id_inj|done]).
      simpl. lia.
    + intros k a [[<- <-]|[_ Hk]]%lookup_insert_Some.
      * rewrite Hsize. split; [done|].
        rewrite list_lookup_middle by done. simpl.
        by destruct (place_items_fields (products s) order_items
                       (Order.init (ord_id (length (order_objs s) + 1))
                          customer today)) as (-> & _).
      * destruct (Hids k a Hk) as [-> Hobj]. split; [done|].
        destruct (order_objs s !! a) as [o|] eqn:Ho; [|done].
        by rewrite (lookup_app_l_Some _ _ _ _ Ho).
    + intros a. rewrite length_app. simpl. intros Ha. rewrite Hsize.
      destruct (decide (a = length (order_objs s))) as [->|Hne].
      * by rewrite lookup_insert_eq.
      * rewrite lookup_insert_ne; [apply Hall; lia|].
        intros Heq%ord_id_inj. lia.
  - destruct (fulfill_order_frame order_id s)
      as (Hlen & _ & _ & _ & Hord & _).
    split_and!; rewrite Hord; [by rewrite Hlen| |by rewrite Hlen].
    intros k a Hk. destruct (Hids k a Hk) as [-> Hobj]. split; [done|].
    destruct (fulfill_order_obj_at order_id s a) as [->|(_ & _ & ->)];
      [done|].
    by destruct (order_objs s !! a).
Qed.

Lemma statuses_ok_exec c s : statuses_ok s → statuses_ok (exec c s).
Proof.
  intros Hst. destruct c; simpl; try (other_ops; fail).
  - rewrite place_order_unfold. simpl.
    intros a o [[_ Ho]|[_ <-]]%lookup_snoc_Some; [by eapply Hst|].
    left.
    by destruct (place_items_fields (products s) order_items
                   (Order.init (ord_id (size (orders s) + 1)) customer today))
      as (_ & _ & _ & ->).
  - intros a o Ho.
    destruct (fulfill_order_obj_at order_id s a) as [Heq|(_ & _ & Heq)];
      rewrite Heq in Ho; [by eapply Hst|].
    destruct (order_objs s !! a); simplify_eq/=. by right.
Qed.

Lemma deliveries_ok_exec c s : deliveries_ok s → deliveries_ok (exec c s).
Proof.
  intros Hd. destruct c; simpl; try (other_ops; fail).
  - rewrite place_order_unfold. intros k d Hk. simpl in *.
    destruct (Hd k d Hk) as [Hid Hst]. split; [done|].
    destruct (order_objs s !! Delivery.order d) as [o|] eqn:Ho; [|done].
    by rewrite (lookup_app_l_Some _ _ _ _ Ho).
  - destruct (fulfill_order_frame order_id s)
      as (_ & _ & _ & _ & _ & Hdel & _).
    intros k d Hk. rewrite Hdel in Hk. destruct (Hd k d Hk) as [Hid Hst].
    split; [done|].
    destruct (fulfill_order_obj_at order_id s (Delivery.order d))
      as [->|(_ & _ & ->)]; [done|].
    by destruct (order_objs s !! Delivery.order d).
  - unfold schedule_delivery.
    destruct (orders s !! order_id) as [a|]; [|done].
    destruct (order_objs s !! a) as [o|] eqn:Ho; [|done].
    case_decide as Hst; [done|].
    intros k d Hk. simpl in *.
    apply lookup_insert_Some in Hk as [[<- <-]|[_ Hk]]; [|by apply Hd].
    simpl. rewrite Ho. simpl. split; [done|]. f_equal.
    by destruct (decide (Order.status o = "Fulfilled")).
  - unfold update_delivery_status.
    destruct (deliveries s !! delivery_id) eqn:Hk; [|done].
    intros k d Hk'. simpl in *.
    apply lookup_alter_Some in Hk' as [(<- & d0 & Hk0 & ->)|[_ Hk0]];
      [|by apply Hd].
    by destruct (Hd _ _ Hk0).
Qed.

(** Every registry that the operations can build satisfies them all. *)
Lemma reachable_identity s :
  reachable s → references_ok s ∧ orders_ok s ∧ statuses_ok s ∧ deliveries_ok s.
Proof.
  induction 1 as [|c s Hs (Hrefs & Hord & Hst & Hdel)].
  - split_and!.
    + split_and!; intros ??; cbn; try (by rewrite lookup_empty).
      by intros ?%elem_of_nil.
    + split_and!; [done| |intros a; cbn; lia].
      intros ??; cbn. by rewrite lookup_empty.
    + intros ??; cbn. by rewrite lookup_nil.
    + intros ??; cbn. by rewrite lookup_empty.
  - split_and!.
    + by apply references_ok_exec.
    + apply orders_ok_exec; [|done]. by apply reachable_inv.
    + by apply statuses_ok_exec.
    + by apply deliveries_ok_exec.
Qed.

(** X3: in a registry built by the operations, [get_inventory] returns an
    item exactly when the inventory holds it under that pair, and such an
    item refers to the product and the location that are registered under
    the two ids of the pair and that bear these ids. *)
Theorem get_inventory_finds_entries s p l item :
  reachable s →
  ((((p, l), item) ∈ inventory s)
   ↔ get_inventory p l s = Run s [] (Returns (Some item)))
  ∧ (get_inventory p l s = Run s [] (Returns (Some item)) →
       products s !! p = Some (InventoryItem.product item)
       ∧ locations s !! l = Some (InventoryItem.location item)
       ∧ Product.product_id (InventoryItem.product item) = p
       ∧ Location.location_id (InventoryItem.location item) = l).
Proof.
  intros Hs. destruct (reachable_identity s Hs) as ((Hps & Hls & Hinv) & _).
  pose proof (inv_inventory_ok s (reachable_inv s Hs)) as Hok.
  unfold get_inventory. split.
  - split.
    + intros Hin. by rewrite (dict_get_elem_ok _ _ _ Hok Hin).
    + intros [= Hget]. by apply dict_get_Some_elem.
  - intros [= Hget]. apply dict_get_Some_elem in Hget.
    destruct (Hinv _ _ Hget) as [Hp Hl]. simpl in *.
    split_and!; [done..| |]; eauto.
Qed.

Lemma get_inventory_finds_entries_witness :
  get_inventory "PROD-001" "LOC-003" stocked_chain
  = Run stocked_chain [] (Returns (Some (InventoryItem.mk apple retailer_y 20)))
  ∧ products stocked_chain !! "PROD-001" = Some apple.
Proof.
  destruct (get_inventory_finds_entries stocked_chain "PROD-001" "LOC-003"
              (InventoryItem.mk apple retailer_y 20) stocked_chain_reachable)
    as [Hiff Hrefs].
  assert (get_inventory "PROD-001" "LOC-003" stocked_chain
          = Run stocked_chain []
              (Returns (Some (InventoryItem.mk apple retailer_y 20)))) as Hget.
  { apply Hiff. apply list_elem_of_lookup. exists 3%nat.
    vm_compute. reflexivity. }
  split; [exact Hget | exact (proj1 (Hrefs Hget))].
Defined.

(** X4: in a registry built by the operations holding [n] orders, the
    registered ids are exactly [ORD-1] to [ORD-n], the order registered
    under an id bears that id, and two ids never name the same order
    object. *)
Theorem order_ids_identify_orders s :
  reachable s →
  (∀ n, is_Some (order_of (ord_id n) s) ↔ (1 ≤ n ≤ size (orders s))%nat)
  ∧ (∀ order_id o, order_of order_id s = Some o →
       Order.order_id o = order_id
       ∧ ∃ n, (1 ≤ n ≤ size (orders s))%nat ∧ order_id = ord_id n)
  ∧ (∀ id1 id2 a, orders s !! id1 = Some a → orders s !! id2 = Some a →
       id1 = id2).
Proof.
  intros Hs.
  destruct (reachable_identity s Hs) as (_ & (Hsize & Hids & Hall) & _).
  split_and!.
  - intros n. split.
    + intros [o (a & Ha & Ho)%order_of_Some].
      destruct (Hids _ _ Ha) as [->%ord_id_inj _].
      apply lookup_lt_Some in Ho. lia.
    + intros Hn. specialize (Hall (n - 1)%nat).
      replace (n - 1 + 1)%nat with n in Hall by lia.
      unfold order_of. rewrite Hall by lia. simpl.
      apply lookup_lt_is_Some_2. lia.
  - intros order_id o (a & Ha & Ho)%order_of_Some.
    destruct (Hids _ _ Ha) as [-> Hobj]. rewrite Ho in Hobj.
    split; [by injection Hobj|].
    exists (a + 1)%nat. split; [|done]. apply lookup_lt_Some in Ho. lia.
  - intros id1 id2 a H1 H2.
    destruct (Hids _ _ H1) as [-> _]. by destruct (Hids _ _ H2) as [-> _].
Qed.

Lemma order_ids_identify_orders_witness :
  (1 ≤ 1 ≤ size (orders ordered_chain))%nat
  ∧ is_Some (order_of "ORD-1" ordered_chain)
  ∧ ¬ is_Some (order_of "ORD-2" ordered_chain).
Proof.
  destruct (order_ids_identify_orders ordered_chain ordered_chain_reachable)
    as (Hiff & _).
  assert (size (orders ordered_chain) = 1%nat) as Hsize
    by (vm_compute; reflexivity).
  split; [rewrite Hsize; lia|]. split.
  - apply (Hiff 1%nat). rewrite Hsize. lia.
  - intros Hn%(Hiff 2%nat). rewrite Hsize in Hn. lia.
Defined.

(** X5: in a registry built by the operations every order is ["Pending"]
    or ["Fulfilled"], and every delivery is registered under its own id and
    refers to a registered order that is ["Fulfilled"]. *)
Theorem deliveries_are_for_fulfilled_orders s :
  reachable s →
  (∀ order_id o, order_of order_id s = Some o →
     Order.status o = "Pending" ∨ Order.status o = "Fulfilled")
  ∧ (∀ delivery_id d, deliveries s !! delivery_id = Some d →
       Delivery.delivery_id d = delivery_id
       ∧ ∃ order_id o,
           orders s !! order_id = Some (Delivery.order d)
           ∧ order_of order_id s = Some o
           ∧ Order.status o = "Fulfilled").
Proof.
  intros Hs.
  destruct (reachable_identity s Hs) as (_ & (_ & _ & Hall) & Hst & Hdel).
  split.
  - intros order_id o (a & _ & Ho)%order_of_Some. by eapply Hst.
  - intros delivery_id d Hd. destruct (Hdel _ _ Hd) as [Hid Hful].
    split; [done|].
    destruct (order_objs s !! Delivery.order d) as [o|] eqn:Ho; [|done].
    injection Hful as Hful.
    exists (ord_id (Delivery.order d + 1)), o.
    assert (orders s !! ord_id (Delivery.order d + 1)
            = Some (Delivery.order d)) as Ha
      by (apply Hall; by eapply lookup_lt_Some).
    split_and!; [done| |done]. apply order_of_Some. eauto.
Qed.

Lemma deliveries_are_for_fulfilled_orders_witness :
  let s := exec (ScheduleDelivery "ORD-1" None)
             (exec (FulfillOrder "ORD-1") ordered_chain) in
  deliveries s !! "DEL-1" = Some (Delivery.init "DEL-1" 0 None)
  ∧ ∃ order_id o,
      orders s !! order_id = Some 0%nat
      ∧ order_of order_id s = Some o
      ∧ Order.status o = "Fulfilled".
Proof.
  intros s.
  assert (reachable s) as Hs
    by exact (reachable_exec _ _ (reachable_exec _ _ ordered_chain_reachable)).
  assert (deliveries s !! "DEL-1" = Some (Delivery.init "DEL-1" 0 None)) as Hd
    by (vm_compute; reflexivity).
  split; [exact Hd|].
  exact (proj2 (proj2 (deliveries_are_for_fulfilled_orders s Hs) _ _ Hd)).
Defined.

(** ** Orders are kept *)

(** A call that neither places nor fulfills an order leaves the orders and
    the order objects alone. *)
Lemma exec_orders_frame c s :
  (∀ customer items today, c ≠ PlaceOrder customer items today) →
  (∀ order_id, c ≠ FulfillOrder order_id) →
  orders (exec c s) = orders s ∧ order_objs (exec c s) = order_objs s.
Proof.
  intros Hplace Hfulfill. destruct c; simpl; try (other_ops; fail).
  - by destruct (Hplace customer order_items today).
  - by destruct (Hfulfill order_id).
Qed.

Lemma exec_order_persists c s order_id a o :
  seq_keys ord_id (orders s) →
  orders s !! order_id = Some a → order_objs s !! a = Some o →
  orders (exec c s) !! order_id = Some a
  ∧ ∃ o', order_objs (exec c s) !! a = Some o'
          ∧ same_order_but_status o o'
          ∧ (Order.status o = "Fulfilled" → Order.status o' = "Fulfilled").
Proof.
  intros Hseq Ha Ho.
  assert (same_order_but_status o o) as Hrefl by done.
  destruct c;
    try (match goal with
         | |- context [exec ?c s] =>
             destruct (exec_orders_frame c s) as [-> ->]; [done|done|]
         end; split; [done|]; by exists o).
  - simpl. rewrite place_order_unfold. simpl. split.
    + rewrite lookup_insert_ne; [done|]. intros <-.
      rewrite seq_keys_fresh in Ha; [done|apply ord_id_inj|done].
    + exists o. by rewrite (lookup_app_l_Some _ _ _ _ Ho).
  - simpl. destruct (fulfill_order_frame order_id0 s)
      as (_ & _ & _ & _ & -> & _).
    split; [done|].
    destruct (fulfill_order_obj_at order_id0 s a) as [->|(_ & _ & ->)].
    + by exists o.
    + rewrite Ho. by eexists.
Qed.

(** X6: in a registry built by the operations, no later sequence of calls
    removes or replaces a registered order: its id keeps naming the same
    order object, whose id, customer, date and items never change, and once
    it is ["Fulfilled"] it stays so. *)
Theorem orders_are_kept cs s order_id a o :
  reachable s →
  orders s !! order_id = Some a → order_objs s !! a = Some o →
  let s' := foldl (flip exec) s cs in
  orders s' !! order_id = Some a
  ∧ ∃ o', order_objs s' !! a = Some o'
          ∧ same_order_but_status o o'
          ∧ (Order.status o = "Fulfilled" → Order.status o' = "Fulfilled").
Proof.
  revert s o. induction cs as [|c cs IH]; intros s o Hs Ha Ho; simpl.
  { split; [done|]. by exists o. }
  destruct (exec_order_persists c s order_id a o) as (Ha1 & o1 & Ho1 & Hsame1 & Hst1);
    [by apply reachable_inv|done..|].
  destruct (IH (exec c s) o1) as (Ha2 & o2 & Ho2 & Hsame2 & Hst2);
    [by constructor|done..|].
  split; [done|]. exists o2. split_and!; [done| |by auto].
  destruct Hsame1 as (? & ? & ? & ?), Hsame2 as (? & ? & ? & ?).
  split_and!; congruence.
Qed.

Lemma orders_are_kept_witness :
  let s' := foldl (flip exec) ordered_chain
              [PlaceOrder "Bob" [("PROD-002", 1)] demo_today;
               FulfillOrder "ORD-1"; AddProduct milk] in
  orders s' !! "ORD-1" = Some 0%nat
  ∧ ∃ o', order_objs s' !! 0%nat = Some o'
          ∧ Order.items o' = [("PROD-001", 5); ("PROD-003", 2)].
Proof.
  intros s'.
  assert (orders ordered_chain !! "ORD-1" = Some 0%nat) as Ha
    by (vm_compute; reflexivity).
  assert (order_objs ordered_chain !! 0%nat
          = Some (Order.mk "ORD-1" "Alice" demo_today
                    [("PROD-001", 5); ("PROD-003", 2)] "Pending")) as Ho
    by (vm_compute; reflexivity).
  destruct (orders_are_kept
              [PlaceOrder "Bob" [("PROD-002", 1)] demo_today;
               FulfillOrder "ORD-1"; AddProduct milk]
              ordered_chain "ORD-1" 0 _ ordered_chain_reachable Ha Ho)
    as (Ha' & o' & Ho' & (_ & _ & _ & Hitems) & _).
  split; [exact Ha'|]. exists o'. split; [exact Ho' | exact Hitems].
Defined.

(** ** Stock is conserved *)

Lemma fulfill_order_inventory order_id s o :
  order_of order_id s = Some o →
  inventory (state_of (fulfill_order order_id s))
  = inventory (state_of (fulfill_items order_id (Order.items o) s))
  ∧ (result (fulfill_order order_id s) = Returns true
     ↔ result (fulfill_items order_id (Order.items o) s) = Returns true).
Proof.
  intros (a & Ha & Ho)%order_of_Some. unfold fulfill_order. rewrite Ha, Ho.
  by destruct (fulfill_items _ _ _) as [s' log [[]|e]].
Qed.

Lemma total_stock_ship s i q e :
  inventory s !! i = Some e → total_stock (ship i q s) = total_stock s - q.
Proof.
  unfold total_stock, ship. simpl. generalize (inventory s) as inv.
  intros inv. revert i.
  induction inv as [|e0 inv IH]; intros [|i] Hi; simplify_eq/=.
  - lia.
  - rewrite (IH i Hi). lia.
Qed.

Lemma fulfill_items_total order_id items s :
  result (fulfill_items order_id items s) = Returns true →
  total_stock (state_of (fulfill_items order_id items s))
  = total_stock s - ordered_total items.
Proof.
  revert s. induction items as [|[p q] items IH]; intros s; simpl.
  { intros _. lia. }
  destruct (find_inventory p q (inventory s)) as [[i it]|] eqn:Hfind;
    [|by destruct (products s !! p)].
  apply find_inventory_Some in Hfind as ([l Hi] & _ & _).
  destruct (products s !! p); simpl; [|done].
  intros Hres. rewrite (IH _ Hres), (total_stock_ship _ _ _ _ Hi). lia.
Qed.

(** X7: a fulfillment that returns [True] takes out of the inventory
    exactly what the order asks for: the sum of all inventory quantities
    afterwards is the sum before less the sum of the quantities of the line
    items. *)
Theorem fulfill_order_conserves_stock s order_id o :
  order_of order_id s = Some o →
  result (fulfill_order order_id s) = Returns true →
  total_stock (state_of (fulfill_order order_id s))
  = total_stock s - ordered_total (Order.items o).
Proof.
  intros Hof Hres.
  destruct (fulfill_order_inventory order_id s o Hof) as [Hinv Hiff].
  unfold total_stock at 1. rewrite Hinv.
  by apply fulfill_items_total, Hiff.
Qed.

Lemma fulfill_order_conserves_stock_witness :
  total_stock ordered_chain = 330
  ∧ total_stock (state_of (fulfill_order "ORD-1" ordered_chain)) = 330 - (5 + (2 + 0)).
Proof.
  split; [vm_compute; reflexivity|].
  assert (total_stock ordered_chain = 330) as <- by (vm_compute; reflexivity).
  apply (fulfill_order_conserves_stock ordered_chain "ORD-1"
           (Order.mk "ORD-1" "Alice" demo_today
              [("PROD-001", 5); ("PROD-003", 2)] "Pending")).
  - vm_compute. reflexivity.
  - vm_compute. reflexivity.
Defined.

(** ** When a fulfillment succeeds *)

Lemma fulfill_items_true_satisfiable order_id items s :
  dict_ok items →
  result (fulfill_items order_id items s) = Returns true →
  ∀ p q, (p, q) ∈ items → is_Some (find_inventory p q (inventory s)).
Proof.
  revert s. induction items as [|[p0 q0] items IH]; intros s Hok; simpl.
  { by intros _ p q ?%elem_of_nil. }
  apply NoDup_cons in Hok as [Hp0 Hok].
  destruct (find_inventory p0 q0 (inventory s)) as [[i it]|] eqn:Hfind;
    [|by destruct (products s !! p0)].
  destruct (products s !! p0); simpl; [|done].
  intros Hres p q [[= -> ->]|Hin]%elem_of_cons; [by rewrite Hfind|].
  pose proof (IH _ Hok Hres p q Hin) as Hsome.
  apply find_inventory_Some in Hfind as ([l Hi] & _ & _).
  unfold ship in Hsome. simpl in Hsome.
  erewrite find_inventory_alter_other in Hsome; [done..|].
  intros ->. apply Hp0. apply list_elem_of_fmap. by exists (p, q).
Qed.

(** X8: in a registry built by the operations, [fulfill_order] on a
    registered order returns [True] exactly when every line item can be
    served from a single entry of the inventory as it is before the call,
    and returns [False] exactly when some line item cannot. *)
Theorem fulfill_order_succeeds_iff s order_id o :
  reachable s →
  order_of order_id s = Some o →
  (result (fulfill_order order_id s) = Returns true
   ↔ satisfiable (Order.items o) (inventory s))
  ∧ (result (fulfill_order order_id s) = Returns false
     ↔ ¬ satisfiable (Order.items o) (inventory s)).
Proof.
  intros Hs Hof.
  pose proof (reachable_inv s Hs) as [Hst Hreg Hok _ _ _].
  assert (result (fulfill_order order_id s) = Returns true
          ↔ satisfiable (Order.items o) (inventory s)) as Hiff.
  { split.
    - intros Hres p q Hin. apply sufficient_find.
      destruct (fulfill_order_inventory order_id s o Hof) as [_ Hres'].
      apply Hres' in Hres. apply order_of_Some in Hof as (a & Ha & Ho).
      eapply fulfill_items_true_satisfiable; [by eapply Hok|done..].
    - intros Hsat. by apply (fulfill_order_ok s order_id o). }
  split; [done|]. rewrite <-Hiff.
  destruct (fulfill_order_returns order_id s Hst Hreg) as [[] ->];
    split; try done; by intros [].
Qed.

Lemma fulfill_order_succeeds_iff_witness :
  result (fulfill_order "ORD-1" ordered_chain) = Returns true
  ∧ satisfiable [("PROD-001", 5); ("PROD-003", 2)] (inventory ordered_chain)
  ∧ result (fulfill_order "ORD-1" short_chain) = Returns false
  ∧ ¬ satisfiable [("PROD-001", 5); ("PROD-002", 500)] (inventory short_chain).
Proof.
  destruct (fulfill_order_succeeds_iff ordered_chain "ORD-1"
              (Order.mk "ORD-1" "Alice" demo_today
                 [("PROD-001", 5); ("PROD-003", 2)] "Pending")
              ordered_chain_reachable) as [Hyes _];
    [vm_compute; reflexivity|].
  destruct (fulfill_order_succeeds_iff short_chain "ORD-1"
              (Order.mk "ORD-1" "Carol" demo_today
                 [("PROD-001", 5); ("PROD-002", 500)] "Pending")
              short_chain_reachable) as [_ Hno];
    [vm_compute; reflexivity|].
  assert (result (fulfill_order "ORD-1" ordered_chain) = Returns true) as H1
    by (vm_compute; reflexivity).
  assert (result (fulfill_order "ORD-1" short_chain) = Returns false) as H2
    by (vm_compute; reflexivity).
  split_and!; [exact H1 | exact (proj1 Hyes H1) | exact H2
              | exact (proj1 Hno H2)].
Defined.

(** ** The line items of a new order *)

Lemma dict_get_not_key {K V} `{EqDecision K} (d : list (K * V)) k :
  k ∉ d.*1 → dict_get k d = None.
Proof.
  intros Hk. destruct (dict_get k d) as [v|] eqn:Hget; [|done].
  destruct Hk. apply list_elem_of_fmap. exists (k, v).
  split; [done|]. by apply dict_get_Some_elem.
Qed.

Lemma dict_set_fresh {K V} `{EqDecision K} (d : list (K * V)) k v :
  dict_get k d = None → dict_set k v d = d ++ [(k, v)].
Proof.
  induction d as [|[k0 v0] d IH]; simpl; [done|].
  case_decide; [done|]. intros Hd. by rewrite IH.
Qed.

Lemma place_items_filter registered order_items o :
  dict_ok order_items →
  (∀ k, k ∈ order_items.*1 → k ∉ (Order.items o).*1) →
  Order.items (place_items order_items registered o).1
  = Order.items o
    ++ filter (λ e, is_Some (registered !! e.1)) order_items.
Proof.
  revert o. induction order_items as [|[p q] rest IH]; intros o Hok Hnew; simpl.
  { by rewrite app_nil_r. }
  apply NoDup_cons in Hok as [Hp Hok].
  destruct (registered !! p) as [product|] eqn:Hreg.
  - rewrite filter_cons_True by (simpl; by rewrite Hreg).
    assert (Order.items (Order.add_item p q o) = Order.items o ++ [(p, q)])
      as Hadd.
    { unfold Order.add_item. simpl.
      rewrite dict_get_not_key by (apply Hnew; left).
      apply dict_set_fresh, dict_get_not_key, Hnew. left. }
    rewrite IH, Hadd; [by rewrite <-app_assoc|done|].
    intros k Hk. rewrite Hadd, fmap_app. simpl.
    intros [Hin|Heq%list_elem_of_singleton]%elem_of_app;
      [|subst k; apply Hp; done].
    revert Hin. apply Hnew. by right.
  - rewrite filter_cons_False by (simpl; rewrite Hreg; by intros [??]).
    specialize (IH o Hok). destruct (place_items rest registered o).
    apply IH. intros k Hk. apply Hnew. by right.
Qed.

(** X9: for a request whose product ids are pairwise distinct, as the keys
    of a dictionary are, the order that [place_order] stores and returns is
    pending, is for the given customer and date, and has as line items
    exactly the requested ones for registered products, in the order of the
    request. *)
Theorem place_order_keeps_registered_items s customer order_items today :
  dict_ok order_items →
  let r := place_order customer order_items today s in
  ∃ a o,
    result r = Returns a
    ∧ order_objs (state_of r) !! a = Some o
    ∧ Order.items o
      = filter (λ e, is_Some (products s !! e.1)) order_items
    ∧ Order.customer o = customer
    ∧ Order.order_date o = today
    ∧ Order.status o = "Pending".
Proof.
  intros Hok r. unfold r. rewrite place_order_unfold. simpl.
  set (o0 := Order.init _ customer today).
  pose proof (place_items_fields (products s) order_items o0)
    as (_ & Hc & Hd & Hst).
  eexists _, _. split_and!; [done|by apply list_lookup_middle| |done..].
  rewrite place_items_filter; [done..|]. intros k _. apply not_elem_of_nil.
Qed.

Lemma place_order_keeps_registered_items_witness :
  ∃ a o,
    result (place_order "Dan"
              [("PROD-003", 1); ("PROD-777", 9); ("PROD-001", 4)]
              demo_today stocked_chain) = Returns a
    ∧ order_objs (state_of (place_order "Dan"
                     [("PROD-003", 1); ("PROD-777", 9); ("PROD-001", 4)]
                     demo_today stocked_chain)) !! a = Some o
    ∧ Order.items o = [("PROD-003", 1); ("PROD-001", 4)].
Proof.
  destruct (place_order_keeps_registered_items stocked_chain "Dan"
              [("PROD-003", 1); ("PROD-777", 9); ("PROD-001", 4)] demo_today)
    as (a & o & Hr & Ho & Hitems & _).
  { unfold dict_ok. apply (bool_decide_unpack _). vm_compute. exact I. }
  exists a, o. split_and!; [exact Hr | exact Ho |].
  rewrite Hitems. vm_compute. reflexivity.
Defined.

(** ** Stock that is never negative *)

Lemma dict_set_Forall {K V} `{EqDecision K} (P : K * V → Prop)
    (d : list (K * V)) k v :
  Forall P d → (∀ k', P (k', v)) → Forall P (dict_set k v d).
Proof.
  intros Hd Hv. induction Hd as [|[k0 v0] d H0 Hd IH]; simpl.
  - by repeat constructor.
  - case_decide; constructor; auto.
Qed.

Lemma exec_nonneg c s :
  adds_nonneg c → inventory_nonneg s → inventory_nonneg (exec c s).
Proof.
  unfold inventory_nonneg. intros Hc Hs.
  destruct c; simpl in *; try (other_ops; fail).
  - unfold add_inventory.
    destruct (products s !! product_id); [|done].
    destruct (locations s !! location_id); [|done].
    destruct (dict_get _ (inventory s)) as [item|] eqn:Hget; simpl;
      (apply dict_set_Forall; [done|]); intros k'; simpl; [|done].
    apply dict_get_Some_elem in Hget.
    rewrite Forall_forall in Hs. specialize (Hs _ Hget). simpl in Hs. lia.
  - by rewrite place_order_unfold.
  - unfold fulfill_order.
    destruct (orders s !! order_id) as [a|]; [|done].
    destruct (order_objs s !! a) as [order|]; [|done].
    pose proof (fulfill_items_nonneg order_id (Order.items order) s Hs) as Hr.
    by destruct (fulfill_items _ _ _) as [s' log [[]|e]].
Qed.

(** X10: when no call adds a negative amount of stock, no sequence of calls
    on a registry without negative quantities, such as a fresh one, ever
    leaves an inventory item with a negative quantity, whatever is ordered
    and fulfilled in between. *)
Theorem stock_never_negative cs s :
  Forall adds_nonneg cs →
  inventory_nonneg s →
  inventory_nonneg (foldl (flip exec) s cs).
Proof.
  intros Hcs. revert s. induction Hcs as [|c cs Hc Hcs IH]; intros s Hs; simpl;
    [done|].
  by apply IH, exec_nonneg.
Qed.

Lemma stock_never_negative_witness :
  inventory_nonneg
    (foldl (flip exec) new_chain
       [AddProduct apple; AddLocation farm_a;
        AddInventory "PROD-001" "LOC-001" 3;
        PlaceOrder "Eve" [("PROD-001", -4)] demo_today;
        FulfillOrder "ORD-1";
        PlaceOrder "Eve" [("PROD-001", 7)] demo_today;
        FulfillOrder "ORD-2"]).
Proof.
  apply stock_never_negative.
  - repeat constructor; simpl; lia.
  - constructor.
Defined.

(** ** Tracking deliveries *)

(** X11: after [update_delivery_status] on a registered delivery,
    [track_delivery] returns a delivery whose status is the new status and
    whose id, order, date and tracking id are those of the delivery that was
    registered; every other delivery and the rest of the registry are as
    before.  On an unregistered id [update_delivery_status] prints the
    not-found line and changes nothing, and so does [track_delivery], which
    then returns [None]. *)
Theorem update_then_track s delivery_id new_status :
  (∀ d, deliveries s !! delivery_id = Some d →
     let s' := state_of (update_delivery_status delivery_id new_status s) in
     (∃ d', track_delivery delivery_id s' = Run s' [] (Returns (Some d'))
            ∧ deliveries s' !! delivery_id = Some d'
            ∧ Delivery.status d' = new_status
            ∧ Delivery.delivery_id d' = Delivery.delivery_id d
            ∧ Delivery.order d' = Delivery.order d
            ∧ Delivery.delivery_date d' = Delivery.delivery_date d
            ∧ Delivery.tracking_id d' = Delivery.tracking_id d)
     ∧ printed (update_delivery_status delivery_id new_status s)
       = [DeliveryStatusUpdated delivery_id new_status]
     ∧ (∀ other, other ≠ delivery_id →
          deliveries s' !! other = deliveries s !! other)
     ∧ set_deliveries (λ _, deliveries s) s' = s)
  ∧ (deliveries s !! delivery_id = None →
       update_delivery_status delivery_id new_status s
       = Run s [DeliveryNotFound delivery_id] (Returns ())
       ∧ track_delivery delivery_id s
         = Run s [DeliveryNotFound delivery_id] (Returns None)).
Proof.
  unfold update_delivery_status, track_delivery. split.
  - intros d Hd. rewrite Hd. simpl. split_and!.
    + exists (Delivery.update_status new_status d).
      rewrite lookup_alter_eq, Hd. by split_and!.
    + done.
    + intros other Hne. by rewrite lookup_alter_ne.
    + by destruct s.
  - intros Hd. by rewrite Hd.
Qed.

Lemma update_then_track_witness :
  let s := exec (ScheduleDelivery "ORD-1" (Some (mkDate 2025 4 18)))
             (exec (FulfillOrder "ORD-1") ordered_chain) in
  let s' := state_of (update_delivery_status "DEL-1" "Out for Delivery" s) in
  deliveries s !! "DEL-1"
  = Some (Delivery.mk "DEL-1" 0 (Some (mkDate 2025 4 18)) None "Scheduled")
  ∧ result (track_delivery "DEL-1" s')
    = Returns (Some (Delivery.mk "DEL-1" 0 (Some (mkDate 2025 4 18)) None
                       "Out for Delivery")).
Proof.
  intros s s'.
  assert (deliveries s !! "DEL-1"
          = Some (Delivery.mk "DEL-1" 0 (Some (mkDate 2025 4 18)) None
                    "Scheduled")) as Hd
    by (vm_compute; reflexivity).
  split; [exact Hd|].
  destruct (proj1 (update_then_track s "DEL-1" "Out for Delivery") _ Hd)
    as ((d' & Htrack & _ & Hst & Hid & Hord & Hdate & Htr) & _).
  fold s' in Htrack. rewrite Htrack. cbn [result].
  destruct d' as [id' ord' date' tr' st'].
  cbn [Delivery.status Delivery.delivery_id Delivery.order
       Delivery.delivery_date Delivery.tracking_id]
    in Hst, Hid, Hord, Hdate, Htr.
  rewrite Hst, Hid, Hord, Hdate, Htr. reflexivity.
Defined.

(** ** Orders without line items *)

Lemma place_items_none registered order_items o :
  (∀ p q, (p, q) ∈ order_items → registered !! p = None) →
  (place_items order_items registered o).1 = o.
Proof.
  induction order_items as [|[p q] rest IH]; intros Hnone; simpl; [done|].
  rewrite (Hnone p q) by left.
  destruct (place_items rest registered o) as [o' log] eqn:Hrest. simpl in *.
  apply IH. intros p' q' Hin. apply (Hnone p' q'). by right.
Qed.

(** X12: an order placed with no items, or with items for unregistered
    products only, has no line items, and fulfilling it right away returns
    [True] and marks it ["Fulfilled"] while shipping nothing: the inventory
    is untouched and only the fulfilled line is printed. *)
Theorem empty_order_is_fulfilled s customer order_items today :
  (∀ p q, (p, q) ∈ order_items → products s !! p = None) →
  let order_id := ord_id (size (orders s) + 1) in
  let s1 := state_of (place_order customer order_items today s) in
  let r := fulfill_order order_id s1 in
  (Order.items <$> order_of order_id s1) = Some []
  ∧ result r = Returns true
  ∧ printed r = [OrderFulfilled order_id]
  ∧ inventory (state_of r) = inventory s
  ∧ (Order.status <$> order_of order_id (state_of r)) = Some "Fulfilled".
Proof.
  intros Hnone order_id s1 r.
  assert (order_of order_id s1 = Some (Order.init order_id customer today))
    as Hof.
  { unfold s1. rewrite place_order_unfold. unfold order_of. simpl.
    rewrite lookup_insert_eq. simpl. rewrite list_lookup_middle by done.
    by rewrite place_items_none. }
  pose proof Hof as (a & Ha & Ho)%order_of_Some.
  assert (inventory s1 = inventory s) as Hinv
    by (unfold s1; by rewrite place_order_unfold).
  assert (orders (state_of r) !! order_id = Some a
          ∧ r = Run (set_order_objs
                       (alter (Order.update_status "Fulfilled") a) s1)
                  [OrderFulfilled order_id] (Returns true)) as [Ha' ->].
  { unfold r, fulfill_order. by rewrite Ha, Ho. }
  rewrite Hof. split_and!; try done.
  unfold order_of. simpl. rewrite Ha. simpl.
  by rewrite list_lookup_alter_eq, Ho.
Qed.

Lemma empty_order_is_fulfilled_witness :
  let s1 := state_of (place_order "Fay" [("PROD-404", 2)] demo_today
                        stocked_chain) in
  result (fulfill_order "ORD-1" s1) = Returns true
  ∧ inventory (state_of (fulfill_order "ORD-1" s1)) = inventory stocked_chain.
Proof.
  assert (∀ p q, (p, q) ∈ [("PROD-404", 2)] →
                 products stocked_chain !! p = None) as Hnone.
  { intros p q [= -> ->]%list_elem_of_singleton. vm_compute. reflexivity. }
  destruct (empty_order_is_fulfilled stocked_chain "Fay" _ demo_today Hnone)
    as (_ & Hres & _ & Hinv & _).
  split; [exact Hres | exact Hinv].
Defined.

(** ** Quantities only go down *)

Lemma fulfill_items_no_increase order_id items s k x :
  (∀ p q, (p, q) ∈ items → 0 ≤ q) →
  quantity_at k s = Some x →
  ∃ x', quantity_at k (state_of (fulfill_items order_id items s)) = Some x'
        ∧ x' ≤ x.
Proof.
  revert s x. induction items as [|[p q] items IH]; intros s x Hpos Hk; simpl.
  { exists x. split; [done|lia]. }
  assert (0 ≤ q) as Hq by (apply (Hpos p q); left).
  assert (∀ i, ∃ x1, quantity_at k (ship i q s) = Some x1 ∧ x1 ≤ x) as Hship.
  { intros i. rewrite quantity_at_ship, Hk. simpl.
    case_decide; eexists; (split; [done|]); simpl; lia. }
  destruct (find_inventory p q (inventory s)) as [[i it]|];
    [|destruct (products s !! p); exists x; split; (done || lia)].
  destruct (Hship i) as (x1 & Hx1 & Hle1).
  destruct (products s !! p); simpl; [|by exists x1].
  destruct (IH (ship i q s) x1) as (x2 & Hx2 & Hle2); [|done|].
  { intros p' q' Hin. apply (Hpos p' q'). by right. }
  exists x2. split; [done|lia].
Qed.

(** X13: when no line item of the order asks for a negative quantity,
    [fulfill_order] raises the quantity of no inventory item: every item
    is still there and holds at most what it held.  (A negative requested
    quantity is not rejected by the code and adds to the stock.) *)
Theorem fulfill_order_never_adds_stock s order_id o k x :
  order_of order_id s = Some o →
  (∀ p q, (p, q) ∈ Order.items o → 0 ≤ q) →
  quantity_at k s = Some x →
  ∃ x', quantity_at k (state_of (fulfill_order order_id s)) = Some x'
        ∧ x' ≤ x.
Proof.
  intros Hof Hpos Hk.
  destruct (fulfill_order_inventory order_id s o Hof) as [Hinv _].
  unfold quantity_at at 1. rewrite Hinv.
  by apply fulfill_items_no_increase.
Qed.

Lemma fulfill_order_never_adds_stock_witness :
  quantity_at 0 ordered_chain = Some 100
  ∧ ∃ x', quantity_at 0 (state_of (fulfill_order "ORD-1" ordered_chain))
          = Some x' ∧ x' ≤ 100.
Proof.
  assert (quantity_at 0 ordered_chain = Some 100) as Hk
    by (vm_compute; reflexivity).
  split; [exact Hk|].
  apply (fulfill_order_never_adds_stock ordered_chain "ORD-1"
           (Order.mk "ORD-1" "Alice" demo_today
              [("PROD-001", 5); ("PROD-003", 2)] "Pending")).
  - vm_compute. reflexivity.
  - intros p q [[= -> ->]|[[= -> ->]|[]%elem_of_nil]%elem_of_cons]%elem_of_cons;
      lia.
  - exact Hk.
Defined.

(** A negative requested quantity adds to the stock: 3 apples become 7
    after an order for -4 of them is fulfilled. *)
Example negative_order_adds_stock :
  let s := foldl (flip exec) new_chain
             [AddProduct apple; AddLocation farm_a;
              AddInventory "PROD-001" "LOC-001" 3;
              PlaceOrder "Eve" [("PROD-001", -4)] demo_today] in
  result (fulfill_order "ORD-1" s) = Returns true
  ∧ stock "PROD-001" "LOC-001" (state_of (fulfill_order "ORD-1" s)) = Some 7.
Proof. vm_compute. done. Qed.

(** ** What a fulfillment never touches *)

(** X14: whatever it returns or raises, [fulfill_order] registers and
    removes nothing: products, locations, the dictionary of orders and the
    deliveries are as before; the inventory has the same keys in the same
    order and each item keeps its product and location, so only quantities
    change; every order object keeps its id, customer, date and items; and
    unless the call returns [True] every order object is as before. *)
Theorem fulfill_order_changes_only_quantities s order_id :
  let r := fulfill_order order_id s in
  let s' := state_of r in
  products s' = products s
  ∧ locations s' = locations s
  ∧ orders s' = orders s
  ∧ deliveries s' = deliveries s
  ∧ (inventory s').*1 = (inventory s).*1
  ∧ (∀ k item', (k, item') ∈ inventory s' →
       ∃ item, (k, item) ∈ inventory s
               ∧ InventoryItem.product item' = InventoryItem.product item
               ∧ InventoryItem.location item' = InventoryItem.location item)
  ∧ length (order_objs s') = length (order_objs s)
  ∧ (∀ a o, order_objs s !! a = Some o →
       ∃ o', order_objs s' !! a = Some o' ∧ same_order_but_status o o')
  ∧ (result r ≠ Returns true → order_objs s' = order_objs s).
Proof.
  intros r s'. unfold s', r.
  destruct (fulfill_order_frame order_id s)
    as (Hlen & _ & Hp & Hl & Ho & Hd & Hk).
  split_and!; try done.
  - intros k item'. apply fulfill_order_same_refs.
  - intros a o Ha.
    destruct (fulfill_order_obj_at order_id s a) as [->|(_ & _ & ->)].
    + by exists o.
    + rewrite Ha. by eexists.
  - intros Hres.
    by destruct (fulfill_order_objs order_id s) as [[_ ->]|(a & _ & ? & _)].
Qed.

(** ** Failing part-way *)

Lemma fulfill_items_false order_id items s :
  dict_ok items →
  result (fulfill_items order_id items s) = Returns false →
  ∃ shipped p q rest,
    items = shipped ++ (p, q) :: rest
    ∧ (∀ p' q', (p', q') ∈ shipped →
         is_Some (find_inventory p' q' (inventory s)))
    ∧ find_inventory p q (inventory s) = None
    ∧ total_stock (state_of (fulfill_items order_id items s))
      = total_stock s - ordered_total shipped.
Proof.
  revert s. induction items as [|[p0 q0] items IH]; intros s Hok; simpl; [done|].
  apply NoDup_cons in Hok as [Hp0 Hok].
  destruct (find_inventory p0 q0 (inventory s)) as [[i it]|] eqn:Hfind.
  - destruct (products s !! p0); simpl; [|done]. intros Hres.
    destruct (IH _ Hok Hres) as (shipped & p & q & rest & -> & Hsh & Hno & Htot).
    pose proof Hfind as ([l Hi] & _ & _)%find_inventory_Some.
    assert (∀ p' q', p' ∈ (shipped ++ (p, q) :: rest).*1 →
              find_inventory p' q' (inventory (ship i q0 s))
              = find_inventory p' q' (inventory s)) as Hsame.
    { intros p' q' Hin. unfold ship. simpl.
      eapply find_inventory_alter_other; [done|]. by intros ->. }
    exists ((p0, q0) :: shipped), p, q, rest. split_and!.
    + done.
    + intros p' q' [[= -> ->]|Hin]%elem_of_cons; [by rewrite Hfind|].
      rewrite <-Hsame; [by apply Hsh|].
      rewrite fmap_app. apply elem_of_app. left.
      apply list_elem_of_fmap. by exists (p', q').
    + rewrite <-Hsame; [done|].
      rewrite fmap_app. apply elem_of_app. right. left.
    + rewrite Htot, (total_stock_ship _ _ _ _ Hi). simpl. lia.
  - destruct (products s !! p0); simpl; [|done]. intros _.
    exists [], p0, q0, items. split_and!; [done| |done|simpl; lia].
    by intros ?? ?%elem_of_nil.
Qed.

(** X15: in a registry built by the operations, when [fulfill_order] on a
    registered order returns [False], the line items split into those that
    were shipped, each of which could be served from a single entry before
    the call, and a first line item that no entry could serve.  The order
    object is untouched, and the shipped quantities stay taken out of the
    inventory: nothing is rolled back, for any number of line items. *)
Theorem fulfill_order_fails_part_way s order_id o :
  reachable s →
  order_of order_id s = Some o →
  result (fulfill_order order_id s) = Returns false →
  ∃ shipped p q rest,
    Order.items o = shipped ++ (p, q) :: rest
    ∧ satisfiable shipped (inventory s)
    ∧ (∀ j, ¬ sufficient_at p q (inventory s) j)
    ∧ total_stock (state_of (fulfill_order order_id s))
      = total_stock s - ordered_total shipped
    ∧ order_of order_id (state_of (fulfill_order order_id s)) = Some o.
Proof.
  intros Hs Hof Hres.
  pose proof (inv_items_ok s (reachable_inv s Hs)) as Hok.
  pose proof Hof as (a & Ha & Ho)%order_of_Some.
  assert (fulfill_order order_id s
          = fulfill_items order_id (Order.items o) s) as Heq.
  { revert Hres. unfold fulfill_order. rewrite Ha, Ho.
    by destruct (fulfill_items _ _ _) as [s' log [[]|e]]. }
  rewrite Heq in Hres |- *.
  destruct (fulfill_items_false order_id (Order.items o) s (Hok a o Ho) Hres)
    as (shipped & p & q & rest & Hitems & Hsh & Hno & Htot).
  exists shipped, p, q, rest. split_and!; try done.
  - intros p' q' Hin. apply sufficient_find. by apply Hsh.
  - by apply find_inventory_None.
  - destruct (fulfill_items_frame order_id (Order.items o) s)
      as (Hobjs & _ & _ & Hord & _).
    unfold order_of. by rewrite Hord, Ha, Hobjs.
Qed.

Lemma fulfill_order_fails_part_way_witness :
  total_stock short_chain = 330
  ∧ ∃ shipped p q rest,
      [("PROD-001", 5); ("PROD-002", 500)] = shipped ++ (p, q) :: rest
      ∧ total_stock (state_of (fulfill_order "ORD-1" short_chain))
        = 330 - ordered_total shipped.
Proof.
  assert (total_stock short_chain = 330) as Htotal
    by (vm_compute; reflexivity).
  split; [exact Htotal|].
  destruct (fulfill_order_fails_part_way short_chain "ORD-1"
              (Order.mk "ORD-1" "Carol" demo_today
                 [("PROD-001", 5); ("PROD-002", 500)] "Pending")
              short_chain_reachable)
    as (shipped & p & q & rest & Hitems & _ & _ & Htot & _);
    [vm_compute; reflexivity | vm_compute; reflexivity |].
  exists shipped, p, q, rest. split; [exact Hitems|].
  rewrite Htot, Htotal. reflexivity.
Defined.

(** ** Scheduling again *)




(** ** Adding a line item *)

(** X17: [Order.add_item] accumulates: the quantity held for the product
    afterwards is the quantity given plus what was held for it before, if
    anything; a product that was present keeps its place among the items
    and a new one goes last; no other line item and no other field of the
    order changes, and the keys stay pairwise distinct. *)
Theorem order_add_item_accumulates o product_id quantity :
  let o' := Order.add_item product_id quantity o in
  dict_get product_id (Order.items o')
  = Some (default 0 (dict_get product_id (Order.items o)) + quantity)
  ∧ (∀ other, other ≠ product_id →
       dict_get other (Order.items o') = dict_get other (Order.items o))
  ∧ (Order.items o').*1
    = (if dict_mem product_id (Order.items o) then (Order.items o).*1
       else (Order.items o).*1 ++ [product_id])
  ∧ (dict_ok (Order.items o) → dict_ok (Order.items o'))
  ∧ Order.order_id o' = Order.order_id o
  ∧ Order.customer o' = Order.customer o
  ∧ Order.order_date o' = Order.order_date o
  ∧ Order.status o' = Order.status o.
Proof.
  intros o'. unfold o'. split_and!; try done.
  - unfold Order.add_item. simpl.
    destruct (dict_get product_id (Order.items o)); simpl;
      by rewrite dict_get_set_eq.
  - intros other Hne. by apply add_item_get.
  - unfold Order.add_item. simpl.
    destruct (dict_get product_id (Order.items o)); apply dict_set_keys.
  - apply add_item_ok.
Qed.
